(** * medenv: the CMEMS accessor ([src/medenv/cmems.py])

    A shallow embedding of the class [CMEMS]: its static feature registry
    [_feature_params], the caching connector [fetch] with its retry loop,
    the nested slicer [f_slice] and the query function [get_value].

    Python objects are modelled as they are used by the code: dictionaries
    as finite maps, instance attributes as optional fields (an attribute
    that was never assigned raises [AttributeError] when read), exceptions
    as an explicit outcome, and the calls that leave the process (the
    login, the remote open) as a [World] of stubs whose invocations are
    recorded. *)

From Stdlib Require Import ZArith QArith Qabs Lia.
From stdpp Require Import gmap strings list.

Local Open Scope string_scope.
Local Open Scope Z_scope.

(** ** Python values *)

Module datetime.

(** [datetime.datetime], naive (no time zone), as the registry builds it. *)
Record t := mk {
  year : Z; month : Z; day : Z;
  hour : Z; minute : Z; second : Z; microsecond : Z }.

#[global] Instance eq_dec : EqDecision t.
Proof. solve_decision. Defined.

Definition fields (d : t) : list Z :=
  [year d; month d; day d; hour d; minute d; second d; microsecond d].

(** Comparison of naive datetimes is lexicographic on the fields. *)
Fixpoint lex_lt (a b : list Z) : bool :=
  match a, b with
  | x :: a', y :: b' => (x <? y) || ((x =? y) && lex_lt a' b')
  | _, _ => false
  end.

Definition ltb (a b : t) : bool := lex_lt (fields a) (fields b).
Definition leb (a b : t) : bool := negb (ltb b a).

(** [datetime.datetime.strptime(s, "%d-%m-%Y")] for a well-formed
    day-month-year text: midnight of that day. *)
Definition of_dmy (d m y : Z) : t := mk y m d 0 0 0 0.

Definition is_leap (y : Z) : bool :=
  (y mod 4 =? 0) && (negb (y mod 100 =? 0) || (y mod 400 =? 0)).

Definition days_before_year (y : Z) : Z :=
  let y' := y - 1 in y' * 365 + y' / 4 - y' / 100 + y' / 400.

Definition days_in_month (y m : Z) : Z :=
  if m =? 2 then (if is_leap y then 29 else 28)
  else if (m =? 4) || (m =? 6) || (m =? 9) || (m =? 11) then 30 else 31.

Definition days_before_month (y m : Z) : Z :=
  fold_right Z.add 0
    (map (days_in_month y) (map Z.of_nat (seq 1 (Z.to_nat (m - 1))))).

Definition toordinal (d : t) : Z :=
  days_before_year (year d) + days_before_month (year d) (month d) + day d.

(** Microseconds since the start of the proleptic calendar: what the
    distance between two instants is measured in. *)
Definition to_microseconds (d : t) : Z :=
  (((toordinal d * 24 + hour d) * 60 + minute d) * 60 + second d) * 1000000
  + microsecond d.

End datetime.

(** A cell of an array or of a table: a float (an exact rational stands
    for a finite float), the float NaN, or an instant. *)
Inductive scalar :=
| Num (q : Q)
| NaN
| Time (d : datetime.t).

(** The values stored in a feature descriptor. *)
Inductive pyval :=
| VStr (s : string)
| VBool (b : bool)
| VDate (d : datetime.t).

#[global] Instance pyval_eq_dec : EqDecision pyval.
Proof. solve_decision. Defined.

(** Truth value of an object in a condition ([if x:]). *)
Definition truthy (v : pyval) : bool :=
  match v with
  | VStr s => negb (String.eqb s "")
  | VBool b => b
  | VDate _ => true
  end.

(** An f-string, kept as its pieces. *)
Inductive piece :=
| Lit (s : string)
| Fmt (v : pyval).

Inductive exn :=
| ValueError (msg : list piece)
| RuntimeError (msg : list piece)
| KeyError (key : string)
| AttributeError (attr : string)
| NameError (name : string)
| TypeError (what : string)
| Failure (what : string)      (* an exception raised by a remote call *)
| Unsupported (what : string). (* an input the model of a library does not cover *)

Inductive result (A : Type) : Type :=
| Ok (a : A)
| Err (e : exn).
Arguments Ok {A} a.
Arguments Err {A} e.

#[global] Instance result_ret : MRet result := λ A a, Ok a.
#[global] Instance result_bind : MBind result := λ A B f r,
  match r with
  | Ok a => f a
  | Err e => Err e
  end.

(** [d[k]] on a dictionary. *)
Definition getitem {V} (d : gmap string V) (k : string) : result V :=
  match d !! k with
  | Some v => Ok v
  | None => Err (KeyError k)
  end.

(** An argument of a query along one axis: a scalar, or a 2-tuple. *)
Inductive axis (A : Type) : Type :=
| Point (x : A)
| Range (lo hi : A).
Arguments Point {A} x.
Arguments Range {A} lo hi.

Definition scalar_eqb (a b : scalar) : bool :=
  match a, b with
  | Num x, Num y => Qeq_bool x y
  | Time x, Time y => bool_decide (x = y)
  | _, _ => false
  end.

Definition scalar_leb (a b : scalar) : bool :=
  match a, b with
  | Num x, Num y => Qle_bool x y
  | Time x, Time y => datetime.leb x y
  | _, _ => false
  end.

(** Two values that Python can order against each other. *)
Definition comparable (a b : scalar) : bool :=
  match a, b with
  | Num _, Num _ => true
  | Time _, Time _ => true
  | _, _ => false
  end.

Definition distance (a b : scalar) : option Q :=
  match a, b with
  | Num x, Num y => Some (Qabs (x - y))
  | Time x, Time y =>
      Some (inject_Z (Z.abs (datetime.to_microseconds x - datetime.to_microseconds y)))
  | _, _ => None
  end.

(** ** The table library (pandas), as far as [f_slice] uses it

    A [DataFrame] has named index levels, named columns, and rows; a row
    holds one value per index level (by position) and one per column. *)
Module pd.

Record DataFrame := mkDataFrame {
  index_names : list string;
  columns : list string;
  rows : list (list scalar * gmap string scalar) }.

(** [df.reset_index(inplace=True)]: every index level becomes a column.
    Inserting a level whose name is already a column is refused. *)
Definition reset_index (df : DataFrame) : result DataFrame :=
  match filter (λ k, k ∈ columns df) (index_names df) with
  | k :: _ => Err (ValueError [Lit "cannot insert "; Fmt (VStr k); Lit ", already exists"])
  | [] =>
      Ok {| index_names := [];
            columns := index_names df ++ columns df;
            rows := map (λ r, ([], list_to_map (zip (index_names df) r.1) ∪ r.2))
                        (rows df) |}
  end.

Definition add_column (k : string) (cols : list string) : list string :=
  if bool_decide (k ∈ cols) then cols else cols ++ [k].

(** [df[k] = v] with a scalar [v]: the value is broadcast to every row. *)
Definition setitem_scalar (k : string) (v : scalar) (df : DataFrame) : DataFrame :=
  {| index_names := index_names df;
     columns := add_column k (columns df);
     rows := map (λ r, (r.1, <[k := v]> r.2)) (rows df) |}.

(** [df[k] = vs] with a sequence [vs] (a tuple is one): one value per row,
    and the lengths must agree. *)
Definition setitem_seq (k : string) (vs : list scalar) (df : DataFrame) : result DataFrame :=
  if bool_decide (length vs = length (rows df)) then
    Ok {| index_names := index_names df;
          columns := add_column k (columns df);
          rows := zip_with (λ r v, (r.1, <[k := v]> r.2)) (rows df) vs |}
  else
    Err (ValueError [Lit "Length of values does not match length of index"]).

(** [df.set_index(keys, inplace=True)]: the named columns become the index
    levels, in the order given; a name that is no column is a [KeyError].
    A cell that a row lacks reads as NaN. *)
Definition set_index (keys : list string) (df : DataFrame) : result DataFrame :=
  match filter (λ k, k ∉ columns df) keys with
  | k :: _ => Err (KeyError k)
  | [] =>
      Ok {| index_names := keys;
            columns := filter (λ c, c ∉ keys) (columns df);
            rows := map (λ r, ((λ k, default NaN (r.2 !! k)) <$> keys,
                               foldr (λ k m, delete k m) r.2 keys))
                        (rows df) |}
  end.

(** [df.index.rename(names, inplace=True)]: one new name per level. *)
Definition rename_index (names : list string) (df : DataFrame) : result DataFrame :=
  if bool_decide (length names = length (index_names df)) then
    Ok {| index_names := names; columns := columns df; rows := rows df |}
  else
    Err (ValueError [Lit "Length of names must match number of levels in MultiIndex."]).

Definition qsum (l : list Q) : Q := foldr Qplus 0%Q l.

(** The mean of the cells of one column; NaN cells are skipped, and the
    mean of nothing is NaN. *)
Definition mean_cells (cells : list scalar) : scalar :=
  let nums := omap (λ c, match c with Num q => Some q | _ => None end) cells in
  match nums with
  | [] => NaN
  | _ => Num (qsum nums / inject_Z (Z.of_nat (length nums)))
  end.

Definition column (k : string) (df : DataFrame) : list scalar :=
  omap (λ r, r.2 !! k) (rows df).

(** [df.mean()]: a series with the mean of each column. *)
Definition mean (df : DataFrame) : list (string * scalar) :=
  map (λ k, (k, mean_cells (column k df))) (columns df).

(** [series.item()]: the only element of a series of length one. *)
Definition item (s : list (string * scalar)) : result scalar :=
  match s with
  | [(_, v)] => Ok v
  | _ => Err (ValueError [Lit "can only convert an array of size 1 to a Python scalar"])
  end.

End pd.

(** ** The array library (xarray), as far as [f_slice] uses it

    A [DataArray] is a view on a stored array: each dimension lists the
    labels still selected, each with its position in the stored array; a
    point selection turns a dimension into a scalar coordinate. The stored
    values are read by position and are never changed by a selection. *)
Module xr.

Record slice := Slice { start : scalar; stop : scalar }.

(** A keyword argument of [sel]. *)
Inductive kwarg :=
| KStr (s : string)
| KScalar (x : scalar)
| KSlice (s : slice).

Record DataArray := mkDataArray {
  name : string;
  dims : list (string * list (nat * scalar));
  scalar_coords : list (string * (nat * scalar));
  data : gmap string nat → scalar }.

(** An opened dataset: its variables by name ([ds[field]]). *)
Definition Dataset := gmap string DataArray.

Fixpoint dedup (seen : list scalar) (labels : list (nat * scalar)) : list (nat * scalar) :=
  match labels with
  | [] => []
  | e :: rest =>
      if existsb (scalar_eqb e.2) seen then dedup seen rest
      else e :: dedup (e.2 :: seen) rest
  end.

(** [da.drop_duplicates(dim=...)]: along every dimension, only the first
    occurrence of a label is kept. *)
Definition drop_duplicates (da : DataArray) : DataArray :=
  {| name := name da;
     dims := map (λ d, (d.1, dedup [] d.2)) (dims da);
     scalar_coords := scalar_coords da;
     data := data da |}.

Fixpoint is_monotonic_increasing (labels : list scalar) : bool :=
  match labels with
  | a :: (b :: _) as rest => scalar_leb a b && is_monotonic_increasing rest
  | _ => true
  end.

Definition in_slice (s : slice) (x : scalar) : bool :=
  scalar_leb (start s) x && scalar_leb x (stop s).

(** Label-based slicing keeps the labels between the two bounds, both
    included. That is what the index computes when it is increasing, as
    the grids of the CMEMS products are; other indexes are left out of
    the model. *)
Definition sel_slice (s : slice) (labels : list (nat * scalar)) : result (list (nat * scalar)) :=
  if negb (forallb (λ e, comparable (start s) e.2 && comparable (stop s) e.2) labels) then
    Err (TypeError "slice bound and index labels")
  else if negb (is_monotonic_increasing labels.*2) then
    Err (Unsupported "index that is not increasing")
  else
    Ok (filter (λ e, in_slice s e.2) labels).

(** The label closest to [x]; of two labels at the same distance the
    larger one wins. *)
Fixpoint nearest (x : scalar) (labels : list (nat * scalar))
    (best : option ((nat * scalar) * Q)) : result (option ((nat * scalar) * Q)) :=
  match labels with
  | [] => Ok best
  | e :: rest =>
      match distance x e.2 with
      | None => Err (TypeError "label and index labels")
      | Some d =>
          nearest x rest
            (match best with
             | None => Some (e, d)
             | Some (e0, d0) =>
                 if negb (Qle_bool d0 d) || (Qeq_bool d d0 && scalar_leb e0.2 e.2)
                 then Some (e, d) else best
             end)
      end
  end.

(** What a selection leaves of one dimension. *)
Inductive selected :=
| Kept (labels : list (nat * scalar))
| Picked (entry : nat * scalar).

Definition sel_one (method : option kwarg) (k : string)
    (labels : list (nat * scalar)) (ix : kwarg) : result selected :=
  match ix, method with
  | KSlice s, None =>
      kept ← sel_slice s labels;
      Ok (Kept kept)
  | KScalar x, Some (KStr m) =>
      if String.eqb m "nearest" then
        best ← nearest x labels None;
        match best with
        | Some (e, _) => Ok (Picked e)
        | None => Err (KeyError k)
        end
      else Err (Unsupported "selection method")
  | _, _ => Err (Unsupported "selection")
  end.

Fixpoint sel_dims (method : option kwarg) (indexers : gmap string kwarg)
    (ds : list (string * list (nat * scalar)))
    : result (list (string * list (nat * scalar)) * list (string * (nat * scalar))) :=
  match ds with
  | [] => Ok ([], [])
  | d :: rest =>
      match indexers !! d.1 with
      | None =>
          r ← sel_dims method indexers rest;
          Ok (d :: r.1, r.2)
      | Some ix =>
          s ← sel_one method d.1 d.2 ix;
          r ← sel_dims method indexers rest;
          match s with
          | Kept labels => Ok ((d.1, labels) :: r.1, r.2)
          | Picked e => Ok (r.1, (d.1, e) :: r.2)
          end
      end
  end.

(** [da.sel], called with the entries of a dictionary as keyword
    arguments: the keyword [method] is the selection method, every
    other keyword names a dimension and gives its indexer. A keyword that
    names no dimension of the array is a [KeyError]. *)
Definition sel (kwargs : gmap string kwarg) (da : DataArray) : result DataArray :=
  let method := kwargs !! "method" in
  let indexers := delete "method" kwargs in
  match filter (λ k, k ∉ (dims da).*1) (map_to_list indexers).*1 with
  | k :: _ => Err (KeyError k)
  | [] =>
      r ← sel_dims method indexers (dims da);
      Ok {| name := name da;
            dims := r.1;
            scalar_coords := scalar_coords da ++ r.2;
            data := data da |}
  end.

(** A numpy array of dimension zero or one. *)
Inductive ndarray :=
| Arr0 (x : scalar)
| Arr1 (xs : list scalar).

(** [da.coords[k].to_numpy()] *)
Definition coords_to_numpy (da : DataArray) (k : string) : result ndarray :=
  match list_find (λ d, d.1 = k) (dims da) with
  | Some (_, d) => Ok (Arr1 d.2.*2)
  | None =>
      match list_find (λ c, c.1 = k) (scalar_coords da) with
      | Some (_, c) => Ok (Arr0 c.2.2)
      | None => Err (KeyError k)
      end
  end.

(** Every way of choosing one element from each list, the first list
    varying slowest. *)
Fixpoint product {A} (ls : list (list A)) : list (list A) :=
  match ls with
  | [] => [[]]
  | l :: rest => x ← l; (λ t, x :: t) <$> product rest
  end.

(** The row of the table for one choice of a label along each dimension:
    the labels as index, the sampled value and the scalar coordinates as
    columns. *)
Definition row_of (da : DataArray) (choice : list (nat * scalar))
    : list scalar * gmap string scalar :=
  let positions : gmap string nat :=
    list_to_map (zip (dims da).*1 choice.*1)
    ∪ list_to_map (map (λ c, (c.1, c.2.1)) (scalar_coords da)) in
  (choice.*2,
   <[name da := data da positions]>
     (list_to_map (map (λ c, (c.1, c.2.2)) (scalar_coords da)))).

(** [da.to_dataframe()]: one row per sampled point, indexed by the
    dimensions; an array without dimensions is refused. *)
Definition to_dataframe (da : DataArray) : result pd.DataFrame :=
  match dims da with
  | [] => Err (ValueError [Lit "cannot convert a scalar to a DataFrame"])
  | _ =>
      Ok {| pd.index_names := (dims da).*1;
            pd.columns := (scalar_coords da).*1 ++ [name da];
            pd.rows := map (row_of da) (product (dims da).*2) |}
  end.

End xr.

(** ** The feature registry *)

(** One entry of [_feature_params]: a dictionary with exactly these keys. *)
Definition descriptor (dataset_id variable slice_mode : string) (has_depth : bool)
    (date_limit : datetime.t) : gmap string pyval :=
  list_to_map
    [("dataset_id", VStr dataset_id);
     ("variable", VStr variable);
     ("slice_mode", VStr slice_mode);
     ("has_depth", VBool has_depth);
     ("date_limit", VDate date_limit)].

Definition _feature_params : gmap string (gmap string pyval) :=
  list_to_map
    [("temperature",
      descriptor "med-cmcc-tem-rean-d" "thetao" "lon-lat" true (datetime.of_dmy 1 1 1987));
     ("salinity",
      descriptor "med-cmcc-sal-rean-d" "so" "lon-lat" true (datetime.of_dmy 1 1 1987));
     ("eastward-water-velocity",
      descriptor "med-cmcc-cur-rean-d" "uo" "lon-lat" true (datetime.of_dmy 1 1 1987));
     ("northward-water-velocity",
      descriptor "med-cmcc-cur-rean-d" "vo" "lon-lat" true (datetime.of_dmy 1 1 1987));
     ("mixed-layer-thickness",
      descriptor "med-cmcc-mld-rean-d" "mlotst" "lon-lat" false (datetime.of_dmy 1 1 1987));
     ("sea-surface-above-geoid",
      descriptor "med-cmcc-ssh-rean-d" "zos" "lon-lat" false (datetime.of_dmy 1 1 1987));
     ("phytoplankton-carbon-biomass",
      descriptor "med-ogs-pft-rean-d" "phyc" "longitude-latitude" true (datetime.of_dmy 1 1 1999));
     ("chlorophyl-a",
      descriptor "med-ogs-pft-rean-d" "chl" "longitude-latitude" true (datetime.of_dmy 1 1 1999));
     ("nitrate",
      descriptor "med-ogs-nut-rean-d" "no3" "longitude-latitude" true (datetime.of_dmy 1 1 1999));
     ("phosphate",
      descriptor "med-ogs-nut-rean-d" "po4" "longitude-latitude" true (datetime.of_dmy 1 1 1999));
     ("ammonium",
      descriptor "med-ogs-nut-rean-d" "nh4" "longitude-latitude" true (datetime.of_dmy 1 1 1999));
     ("net-primary-production",
      descriptor "med-ogs-bio-rean-d" "nppv" "longitude-latitude" true (datetime.of_dmy 1 1 1999));
     ("oxygen",
      descriptor "med-ogs-bio-rean-d" "o2" "longitude-latitude" true (datetime.of_dmy 1 1 1999));
     ("ph",
      descriptor "med-ogs-car-rean-d" "ph" "longitude-latitude" true (datetime.of_dmy 1 1 1999));
     ("dissolved-inorganic-carbon",
      descriptor "med-ogs-car-rean-d" "dissic" "longitude-latitude" true (datetime.of_dmy 1 1 1999));
     ("alkalinity",
      descriptor "med-ogs-car-rean-d" "talk" "longitude-latitude" true (datetime.of_dmy 1 1 1999));
     ("surface-partial-pressure-co2",
      descriptor "med-ogs-co2-rean-d" "spco2" "longitude-latitude" false (datetime.of_dmy 1 1 1999));
     ("surface-co2-flux",
      descriptor "med-ogs-co2-rean-d" "fpco2" "longitude-latitude" false (datetime.of_dmy 1 1 1999))].

(** ** The accessor object and the world around it *)

(** What [open_url] returns, and the store built on it. *)
Inductive Datastream := DatasetType (content : xr.Dataset).
Inductive DataStore := PydapStore (stream : Datastream).
Inductive Session := SessionObject.

(** An instance of [CMEMS]. [datastores] is the cache; the other two
    attributes are read by [fetch], and are [None] as long as nothing has
    assigned them. *)
Record CMEMS := mkCMEMS {
  datastores : gmap string xr.Dataset;
  num_retries : option Z;
  session : option Session }.

(** The calls that leave the process, as stubs. [open_url] is the module's
    global of that name: cmems.py imports no such name, so it is bound only
    when the environment of the call binds it, and is [None] otherwise. Its
    outcome may depend on how many times it has been called before. *)
Record World := mkWorld {
  login : bool;
  open_url : option (nat → string → result Datastream);
  PydapDataStore : Datastream → result DataStore;
  open_dataset : DataStore → result xr.Dataset }.

(** What a run records: the invocations of the connector [fetch], and the
    remote calls made on its behalf. *)
Inductive call :=
| CallFetch (prefix_dataset dataset : string)
| CallOpenUrl (url : string)
| CallOpenDataset.

#[global] Instance call_eq_dec : EqDecision call.
Proof. solve_decision. Defined.

Definition is_open_url (c : call) : bool :=
  match c with
  | CallOpenUrl _ => true
  | _ => false
  end.

(** The state a method runs in: the object, and the calls made so far. *)
Record Run := mkRun {
  self : CMEMS;
  calls : list call }.

Inductive outcome (A : Type) : Type :=
| Return (a : A)
| Raise (e : exn)
| OutOfFuel.
Arguments Return {A} a.
Arguments Raise {A} e.
Arguments OutOfFuel {A}.

(** A method body: it ends in a value or an exception, and in both cases
    leaves a state behind. *)
Definition M (A : Type) : Type := Run → outcome A * Run.

#[global] Instance M_ret : MRet M := λ A a r, (Return a, r).
#[global] Instance M_bind : MBind M := λ A B f m r,
  match m r with
  | (Return a, r') => f a r'
  | (Raise e, r') => (Raise e, r')
  | (OutOfFuel, r') => (OutOfFuel, r')
  end.

Definition raise {A} (e : exn) : M A := λ r, (Raise e, r).

Definition lift {A} (x : result A) : M A := λ r,
  match x with
  | Ok a => (Return a, r)
  | Err e => (Raise e, r)
  end.

(** [try: body except: handler], with a bare [except] that catches
    everything. *)
Definition try_except {A} (body : M A) (handler : exn → M A) : M A := λ r,
  match body r with
  | (Raise e, r') => handler e r'
  | other => other
  end.

(** [self.attr] *)
Definition getattr {A} (attr : string) (field : CMEMS → option A) : M A := λ r,
  match field (self r) with
  | Some v => (Return v, r)
  | None => (Raise (AttributeError attr), r)
  end.

(** A global name of the module. *)
Definition global {A} (name : string) (binding : option A) : M A := λ r,
  match binding with
  | Some v => (Return v, r)
  | None => (Raise (NameError name), r)
  end.

Definition record (c : call) : M unit := λ r,
  (Return (), {| self := self r; calls := calls r ++ [c] |}).

(** [self.datastores[dataset] = d] *)
Definition store (dataset : string) (d : xr.Dataset) : M unit := λ r,
  (Return (),
   {| self := {| datastores := <[dataset := d]> (datastores (self r));
                 num_retries := num_retries (self r);
                 session := session (self r) |};
      calls := calls r |}).

Definition call_open_url (f : nat → string → result Datastream) (url : string)
    : M Datastream := λ r,
  let n := length (filter (λ c, is_open_url c = true) (calls r)) in
  (record (CallOpenUrl url);; lift (f n url)) r.

(** ** [CMEMS.__init__] *)

(** The credentials, read from the environment or asked for, only feed the
    login. The argument [num_retries] is not used by the body. *)
Definition __init__ (w : World) (num_retries : Z) : result CMEMS :=
  if login w then
    Ok {| datastores := ∅; num_retries := None; session := None |}
  else
    Err (RuntimeError [Lit "Login to cmems unsucessfull, aborting..."]).

(** ** [CMEMS.fetch] *)

Definition url_of (prefix_dataset dataset : string) : string :=
  "https://" +:+ prefix_dataset +:+ ".cmems-du.eu/thredds/dodsC/" +:+ dataset.

(** The [while True] loop of [fetch]. [fuel] bounds the number of
    iterations; [retry_loop_total] shows the bound used by [fetch] is never
    reached. *)
Fixpoint retry_loop (w : World) (fuel : nat) (url : string) (retries : Z) : M DataStore :=
  match fuel with
  | O => λ r, (OutOfFuel, r)
  | S fuel' =>
      try_except
        (open ← global "open_url" (open_url w);
         _ ← getattr "session" session;
         datastream ← call_open_url open url;
         lift (PydapDataStore w datastream))
        (λ _,
           (* the warning formats self.num_retries - retries *)
           _ ← getattr "num_retries" num_retries;
           let retries := retries + 1 in
           n ← getattr "num_retries" num_retries;
           if retries >=? n then
             raise (RuntimeError [Lit "Cannot successfully access the dataset"])
           else
             retry_loop w fuel' url retries)
  end.

Definition retry_fuel (me : CMEMS) : nat :=
  match num_retries me with
  | Some n => S (Z.to_nat n)
  | None => 1
  end.

Definition get_self : M CMEMS := λ r, (Return (self r), r).

Definition fetch (w : World) (prefix_dataset dataset : string) : M xr.Dataset :=
  record (CallFetch prefix_dataset dataset);;
  me ← get_self;
  match datastores me !! dataset with
  | None =>
      data_store ← retry_loop w (retry_fuel me) (url_of prefix_dataset dataset) 0;
      record CallOpenDataset;;
      d ← lift (open_dataset w data_store);
      store dataset d
  | Some _ => mret ()
  end;;
  me ← get_self;
  lift (getitem (datastores me) dataset).

(** ** [f_slice], the function nested in [get_value] *)

(** What [get_value] returns first: the table, or its mean. *)
Inductive value :=
| Table (df : pd.DataFrame)
| Scalar (x : scalar).

(** A value of the dictionary of selected coordinates. *)
Inductive coordinate :=
| Numpy (a : xr.ndarray)
| PyFloat (x : scalar).

(** The two dictionaries of keyword arguments that [f_slice] fills. *)
Record definitions := mkDefinitions {
  slice_coords_definition : gmap string xr.kwarg;
  noslice_coords_definition : gmap string xr.kwarg }.

(** The test repeated for every axis: a tuple goes to the slice
    dictionary as [slice(a[0], a[1])], anything else to the other one. *)
Definition define (key : string) (a : axis scalar) (d : definitions) : definitions :=
  match a with
  | Range lo hi =>
      {| slice_coords_definition :=
           <[key := xr.KSlice (xr.Slice lo hi)]> (slice_coords_definition d);
         noslice_coords_definition := noslice_coords_definition d |}
  | Point x =>
      {| slice_coords_definition := slice_coords_definition d;
         noslice_coords_definition :=
           <[key := xr.KScalar x]> (noslice_coords_definition d) |}
  end.

Definition axis_map {A B} (f : A → B) (a : axis A) : axis B :=
  match a with
  | Point x => Point (f x)
  | Range lo hi => Range (f lo) (f hi)
  end.

Definition key_lon (mode : pyval) : string :=
  if decide (mode = VStr "lon-lat") then "lon" else "longitude".

Definition key_lat (mode : pyval) : string :=
  if decide (mode = VStr "lon-lat") then "lat" else "latitude".

(** The dictionaries as they are when [f_slice] calls [sel]. *)
Definition coords_definitions (mode : pyval) (date : axis datetime.t)
    (long_lat : axis Q * axis Q) (depth : axis Q) (has_depth : pyval) : definitions :=
  let d := {| slice_coords_definition := ∅;
              noslice_coords_definition := {["method" := xr.KStr "nearest"]} |} in
  let d := define (key_lon mode) (axis_map Num long_lat.1) d in
  let d := define (key_lat mode) (axis_map Num long_lat.2) d in
  let d := if truthy has_depth then define "depth" (axis_map Num depth) d else d in
  define "time" (axis_map Time date) d.

(** [df_values["depth"] = depth] *)
Definition set_depth (depth : axis Q) (df : pd.DataFrame) : result pd.DataFrame :=
  match depth with
  | Point x => Ok (pd.setitem_scalar "depth" (Num x) df)
  | Range lo hi => pd.setitem_seq "depth" [Num lo; Num hi] df
  end.

(** [reduction] is the argument of the enclosing [get_value]. *)
Definition f_slice (reduction : option pyval) (ds : xr.DataArray) (mode : pyval)
    (date : axis datetime.t) (long_lat : axis Q * axis Q) (depth : axis Q)
    (has_depth : pyval) : result (value * gmap string coordinate) :=
  let key_lon := key_lon mode in
  let key_lat := key_lat mode in
  let d := coords_definitions mode date long_lat depth has_depth in
  let ds := xr.drop_duplicates ds in
  values ← xr.sel (slice_coords_definition d) ds;
  values ← xr.sel (noslice_coords_definition d) values;
  df_values ← xr.to_dataframe values;
  df_values ← pd.reset_index df_values;
  df_values ← (if negb (truthy has_depth) then set_depth depth df_values
               else Ok df_values);
  df_values ← pd.set_index ["time"; key_lon; key_lat; "depth"] df_values;
  df_values ← pd.rename_index ["time"; "longitude"; "latitude"; "depth"] df_values;
  result ← (if decide (reduction = Some (VStr "mean"))
            then x ← pd.item (pd.mean df_values); Ok (Scalar x)
            else Ok (Table df_values));
  c_time ← xr.coords_to_numpy values "time";
  c_lon ← xr.coords_to_numpy values key_lon;
  c_lat ← xr.coords_to_numpy values key_lat;
  c_depth ← (if truthy has_depth
             then a ← xr.coords_to_numpy values "depth"; Ok (Numpy a)
             else Ok (PyFloat NaN));
  (* a dictionary display keeps the last value of a repeated key, a
     list_to_map the first: the entries are listed last to first *)
  let selected_coordinates : gmap string coordinate :=
    list_to_map
      [("depth", c_depth); (key_lat, Numpy c_lat);
       (key_lon, Numpy c_lon); ("time", Numpy c_time)] in
  Ok (result, selected_coordinates).

(** ** [CMEMS.get_value] *)

Definition as_str (v : pyval) : result string :=
  match v with
  | VStr s => Ok s
  | _ => Err (Unsupported "identifier that is not a string")
  end.

(** [d < limit] for a datetime [d] *)
Definition date_lt (d : datetime.t) (limit : pyval) : result bool :=
  match limit with
  | VDate l => Ok (datetime.ltb d l)
  | _ => Err (TypeError "'<' between a datetime and another object")
  end.

(** [date[0]] for a tuple, [date] otherwise: the operand of the test
    against the validity start. *)
Definition first_date (date : axis datetime.t) : datetime.t :=
  match date with
  | Range d0 _ => d0
  | Point d => d
  end.

(** The body of [get_value], for a given value of the class attribute
    [_feature_params]. *)
Definition get_value_with (registry : gmap string (gmap string pyval)) (w : World)
    (date : axis datetime.t) (long_lat : axis Q * axis Q) (depth : axis Q)
    (what : string) (reduction : option pyval) : M (value * gmap string coordinate) :=
  match registry !! what with
  | Some params =>
      limit ← lift (getitem params "date_limit");
      before ← lift (date_lt (first_date date) limit);
      if (before : bool) then
        raise (ValueError [Lit "Cannot get "; Fmt (VStr what); Lit " before "; Fmt limit])
      else
        prefix_dataset ← lift (getitem params "prefix");
        dataset ← lift (getitem params "dataset");
        prefix_dataset ← lift (as_str prefix_dataset);
        dataset ← lift (as_str dataset);
        datastore ← fetch w prefix_dataset dataset;
        _ ← lift (getitem params "field");
        field ← lift (getitem params "field");
        field ← lift (as_str field);
        ds ← lift (getitem datastore field);
        mode ← lift (getitem params "slice_mode");
        has_depth ← lift (getitem params "has_depth");
        lift (f_slice reduction ds mode date long_lat depth has_depth)
  | None =>
      raise (ValueError
               [Lit "Does not know which dataset to download for the key ";
                Fmt (VStr what)])
  end.

Definition get_value : World → axis datetime.t → axis Q * axis Q → axis Q → string →
    option pyval → M (value * gmap string coordinate) :=
  get_value_with _feature_params.

(** * Vocabulary of the statements *)

(** The body of the [try] block of [fetch]. *)
Definition attempt (w : World) (url : string) : M DataStore :=
  open ← global "open_url" (open_url w);
  _ ← getattr "session" session;
  datastream ← call_open_url open url;
  lift (PydapDataStore w datastream).

(** The [except] block of [fetch], entered with [retries] failures before. *)
Definition handler (w : World) (fuel : nat) (url : string) (retries : Z) : M DataStore :=
  _ ← getattr "num_retries" num_retries;
  n ← getattr "num_retries" num_retries;
  if retries + 1 >=? n then
    raise (RuntimeError [Lit "Cannot successfully access the dataset"])
  else retry_loop w fuel url (retries + 1).

Definition called (c : call) (r : Run) : Run :=
  {| self := self r; calls := calls r ++ [c] |}.

Definition cached (dataset : string) (d : xr.Dataset) (r : Run) : Run :=
  {| self := {| datastores := <[dataset := d]> (datastores (self r));
                num_retries := num_retries (self r);
                session := session (self r) |};
     calls := calls r |}.

(** One try of the remote open, as the [n]-th call of [open_url]. *)
Definition try_open (w : World) (f : nat → string → result Datastream)
    (n : nat) (url : string) : result DataStore :=
  datastream ← f n url; PydapDataStore w datastream.

Definition opens (r : Run) : nat :=
  length (filter (λ c, is_open_url c = true) (calls r)).

Definition called_n (n : nat) (c : call) (r : Run) : Run :=
  {| self := self r; calls := calls r ++ replicate n c |}.

(** A stub connector: the first [fails] calls of [open_url] fail, the
    later ones give a dataset. *)
Definition flaky (fails : nat) (content : xr.Dataset) : nat → string → result Datastream :=
  λ n _, if (n <? fails)%nat then Err (Failure "connection") else Ok (DatasetType content).

Definition stub_world (fails : nat) (content : xr.Dataset) : World :=
  {| login := true;
     open_url := Some (flaky fails content);
     PydapDataStore := λ s, Ok (PydapStore s);
     open_dataset := λ s, match s with PydapStore (DatasetType c) => Ok c end |}.

(** The object as [__init__] leaves it. *)
Definition fresh : CMEMS :=
  {| datastores := ∅; num_retries := None; session := None |}.

(** An object on which a caller has assigned the two attributes. *)
Definition configured (n : Z) : CMEMS :=
  {| datastores := ∅; num_retries := Some n; session := Some SessionObject |}.

Definition fetch_all (w : World) (requests : list (string * string)) (r : Run) : Run :=
  foldl (λ r q, (fetch w q.1 q.2 r).2) r requests.

Definition unknown_feature (what : string) : exn :=
  ValueError [Lit "Does not know which dataset to download for the key "; Fmt (VStr what)].

Definition undefined_before (what : string) (limit : datetime.t) : exn :=
  ValueError [Lit "Cannot get "; Fmt (VStr what); Lit " before "; Fmt (VDate limit)].

(** What the two dictionaries hold for one axis: a range is a slice under
    the key, a scalar is a label under the key, and never both. *)
Definition selects (d : definitions) (key : string) (a : axis scalar) : Prop :=
  match a with
  | Range lo hi =>
      slice_coords_definition d !! key = Some (xr.KSlice (xr.Slice lo hi))
      ∧ noslice_coords_definition d !! key = None
  | Point x =>
      noslice_coords_definition d !! key = Some (xr.KScalar x)
      ∧ slice_coords_definition d !! key = None
  end.

Definition unselected (d : definitions) (key : string) : Prop :=
  slice_coords_definition d !! key = None ∧ noslice_coords_definition d !! key = None.

(** The array [values] of [f_slice]: the two selections in turn. *)
Definition selection (ds : xr.DataArray) (mode : pyval) (date : axis datetime.t)
    (long_lat : axis Q * axis Q) (depth : axis Q) (has_depth : pyval)
    : result xr.DataArray :=
  let d := coords_definitions mode date long_lat depth has_depth in
  values ← xr.sel (slice_coords_definition d) (xr.drop_duplicates ds);
  xr.sel (noslice_coords_definition d) values.

(** The columns that [f_slice] turns into the index. *)
Definition index_keys (mode : pyval) : list string :=
  ["time"; key_lon mode; key_lat mode; "depth"].

(** The table [df_values] of [f_slice], from the array [values]. *)
Definition table (mode : pyval) (depth : axis Q) (has_depth : pyval)
    (values : xr.DataArray) : result pd.DataFrame :=
  df_values ← xr.to_dataframe values;
  df_values ← pd.reset_index df_values;
  df_values ← (if negb (truthy has_depth) then set_depth depth df_values
               else Ok df_values);
  df_values ← pd.set_index (index_keys mode) df_values;
  pd.rename_index ["time"; "longitude"; "latitude"; "depth"] df_values.

(** The first component of the result, from the table. *)
Definition reduce (reduction : option pyval) (df_values : pd.DataFrame) : result value :=
  if decide (reduction = Some (VStr "mean"))
  then x ← pd.item (pd.mean df_values); Ok (Scalar x)
  else Ok (Table df_values).

(** The dictionary [selected_coordinates] of [f_slice]. *)
Definition selected_coordinates (mode : pyval) (has_depth : pyval)
    (values : xr.DataArray) : result (gmap string coordinate) :=
  c_time ← xr.coords_to_numpy values "time";
  c_lon ← xr.coords_to_numpy values (key_lon mode);
  c_lat ← xr.coords_to_numpy values (key_lat mode);
  c_depth ← (if truthy has_depth
             then a ← xr.coords_to_numpy values "depth"; Ok (Numpy a)
             else Ok (PyFloat NaN));
  Ok (list_to_map
        [("depth", c_depth); (key_lat mode, Numpy c_lat);
         (key_lon mode, Numpy c_lon); ("time", Numpy c_time)]).

(** The cells of a row once [reset_index] has made the index levels
    columns. *)
Definition reset_cells (names : list string) (r : list scalar * gmap string scalar)
    : gmap string scalar :=
  list_to_map (zip names r.1) ∪ r.2.


(** The claim as it is worded: each of the four axes is given a slice or a
    label according to the shape of its argument. *)
Definition selects_every_axis (mode : pyval) (date : axis datetime.t)
    (long_lat : axis Q * axis Q) (depth : axis Q) (has_depth : pyval) : Prop :=
  let d := coords_definitions mode date long_lat depth has_depth in
  selects d (key_lon mode) (axis_map Num long_lat.1) ∧
  selects d (key_lat mode) (axis_map Num long_lat.2) ∧
  selects d "depth" (axis_map Num depth) ∧
  selects d "time" (axis_map Time date).

(** ** Sample data *)

Definition labelled (labels : list scalar) : list (nat * scalar) :=
  imap (λ i x, (i, x)) labels.

Definition sample_days : list scalar :=
  [Time (datetime.of_dmy 30 7 2020); Time (datetime.of_dmy 31 7 2020)].

Definition sample_data (positions : gmap string nat) : scalar :=
  Num (inject_Z (Z.of_nat (default 0%nat (positions !! "lon")
                           + 10 * default 0%nat (positions !! "lat")
                           + 100 * default 0%nat (positions !! "depth")))).

(** A small temperature grid, with the naming of the physics products. *)
Definition sample_thetao : xr.DataArray :=
  {| xr.name := "thetao";
     xr.dims := [("time", labelled sample_days);
                 ("depth", labelled [Num 1; Num 5; Num 10]);
                 ("lat", labelled [Num 30; Num 31]);
                 ("lon", labelled [Num (-5); Num 0; Num 5; Num 10; Num 15])];
     xr.scalar_coords := [];
     xr.data := sample_data |}.

(** A small grid without a depth dimension. *)
Definition sample_mlotst : xr.DataArray :=
  {| xr.name := "mlotst";
     xr.dims := [("time", labelled sample_days);
                 ("lat", labelled [Num 30; Num 31]);
                 ("lon", labelled [Num (-5); Num 0; Num 5; Num 10; Num 15])];
     xr.scalar_coords := [];
     xr.data := sample_data |}.

Definition sample_day : datetime.t := datetime.of_dmy 31 7 2020.

Definition table_of (r : result (value * gmap string coordinate)) : pd.DataFrame :=
  match r with
  | Ok (Table df, _) => df
  | _ => {| pd.index_names := []; pd.columns := []; pd.rows := [] |}
  end.

Definition coordinates_of (r : result (value * gmap string coordinate))
    : gmap string coordinate :=
  match r with
  | Ok (_, sc) => sc
  | Err _ => ∅
  end.

Definition thetao_query : result (value * gmap string coordinate) :=
  f_slice None sample_thetao (VStr "lon-lat") (Point sample_day)
    (Range 0%Q 10%Q, Point 30%Q) (Point 4%Q) (VBool true).

Definition mlotst_query : result (value * gmap string coordinate) :=
  f_slice None sample_mlotst (VStr "lon-lat") (Point sample_day)
    (Range 0%Q 10%Q, Point 30%Q) (Point 4%Q) (VBool false).

Definition sample_run : Run := mkRun (configured 10) [].

Definition sample_cached : Run :=
  {| self := {| datastores := {["med-cmcc-tem-rean-d" := ∅]};
                num_retries := Some 10; session := Some SessionObject |};
     calls := [CallFetch "med" "med-cmcc-tem-rean-d";
               CallOpenUrl (url_of "med" "med-cmcc-tem-rean-d");
               CallOpenDataset] |}.

(** The number of tries the loop makes at most when [self.num_retries] is
    [n]: the test comes after the try, so one try is made whatever [n]. *)
Definition max_tries (n : Z) : nat := Z.to_nat (Z.max 1 n).

Definition unbounded : CMEMS :=
  {| datastores := ∅; num_retries := None; session := Some SessionObject |}.

(** A registry whose one descriptor also has the keys that [get_value]
    reads: what the class attribute would have to hold for a query to
    reach the connector. *)
Definition patched_registry : gmap string (gmap string pyval) :=
  {["temperature" :=
      <["prefix" := VStr "med"]>
        (<["dataset" := VStr "med-cmcc-tem-rean-d"]>
           (<["field" := VStr "thetao"]>
              (descriptor "med-cmcc-tem-rean-d" "thetao" "lon-lat" true
                 (datetime.of_dmy 1 1 1987))))]}.

(** A world whose connector opens a dataset with the sample temperature. *)
Definition sample_world : World := stub_world 0 {["thetao" := sample_thetao]}.

Definition patched_query : outcome (value * gmap string coordinate) * Run :=
  get_value_with patched_registry sample_world (Point sample_day)
    (Range 0%Q 10%Q, Point 30%Q) (Point 4%Q) "temperature" None sample_run.

(** What stands behind a value that [get_value] returned: the descriptor
    named the connector's arguments and the variable, [fetch] returned the
    dataset that is now in the cache, and [f_slice] computed the value from
    that variable of it. *)
Definition answered_from (registry : gmap string (gmap string pyval)) (w : World)
    (date : axis datetime.t) (long_lat : axis Q * axis Q) (depth : axis Q)
    (what : string) (reduction : option pyval) (r : Run)
    (v : value * gmap string coordinate) (r1 : Run) : Prop :=
  ∃ params p d field ds da mode has_depth,
    registry !! what = Some params ∧
    params !! "prefix" = Some (VStr p) ∧ params !! "dataset" = Some (VStr d) ∧
    params !! "field" = Some (VStr field) ∧
    params !! "slice_mode" = Some mode ∧ params !! "has_depth" = Some has_depth ∧
    fetch w p d r = (Return ds, r1) ∧
    datastores (self r1) !! d = Some ds ∧ ds !! field = Some da ∧
    f_slice reduction da mode date long_lat depth has_depth = Ok v.

Definition box_query : result (value * gmap string coordinate) :=
  f_slice None sample_thetao (VStr "lon-lat")
    (Range (datetime.of_dmy 30 7 2020) (datetime.of_dmy 31 7 2020))
    (Range 0%Q 10%Q, Range 30%Q 31%Q) (Range 1%Q 5%Q) (VBool true).

Definition is_range {A} (a : axis A) : Prop :=
  match a with
  | Range _ _ => True
  | Point _ => False
  end.

(** The keys that [f_slice] passes to the selections. *)
Definition queried_keys (mode has_depth : pyval) : list string :=
  "time" :: key_lon mode :: key_lat mode :: (if truthy has_depth then ["depth"] else []).

(** [y] is a label of [labels], and no label is closer to [x]. *)
Definition nearest_label (x : scalar) (labels : list scalar) (y : scalar) : Prop :=
  ∃ d, y ∈ labels ∧ distance x y = Some d ∧
       Forall (λ l, ∃ d', distance x l = Some d' ∧ (d <= d')%Q) labels.

Definition nearest_query : result (value * gmap string coordinate) :=
  f_slice None sample_thetao (VStr "lon-lat") (Point sample_day)
    (Range 0%Q 10%Q, Point (304 # 10)%Q) (Point 4%Q) (VBool true).


(** The products of one producer share their naming and validity start. *)
Definition family (producer mode : string) (start : datetime.t)
    (params : gmap string pyval) : Prop :=
  (∃ id, params !! "dataset_id" = Some (VStr id) ∧ String.prefix producer id = true) ∧
  params !! "slice_mode" = Some (VStr mode) ∧
  params !! "date_limit" = Some (VDate start).

(** The query of [examples/example-cmems-001.py], on the sample grid. *)
Definition example_query (reduction : option pyval)
    : result (value * gmap string coordinate) :=
  f_slice reduction sample_thetao (VStr "lon-lat") (Point (datetime.mk 2020 7 31 0 0 0 0))
    (Point (-295 # 100)%Q, Point (3532 # 100)%Q) (Point (83 # 10)%Q) (VBool true).

(** The value stored at a sampled point of a selected array: the
    positions chosen along its dimensions, with those of its scalar
    coordinates. *)
Definition sampled (values : xr.DataArray) (choice : list (nat * scalar)) : scalar :=
  xr.data values
    (list_to_map (zip (xr.dims values).*1 choice.*1)
     ∪ list_to_map (map (λ c, (c.1, c.2.1)) (xr.scalar_coords values))).

(** The label chosen along the dimension [key] at a sampled point. *)
Definition label_at (values : xr.DataArray) (choice : list (nat * scalar))
    (key : string) : option scalar :=
  (list_to_map (zip (xr.dims values).*1 choice.*2) : gmap string scalar) !! key.

(** The mean over a slice, as the claim words it: the sum of the sampled
    numbers over their count. Samples that are no numbers are skipped, and
    the mean of no number is NaN. *)
Definition slice_mean (samples : list scalar) : scalar :=
  match omap (λ c, match c with Num q => Some q | _ => None end) samples with
  | [] => NaN
  | q :: qs => Num (foldr Qplus 0%Q (q :: qs) / inject_Z (Z.of_nat (S (length qs))))
  end.

(** * Properties *)

Ltac run :=
  unfold try_except, mbind, M_bind, mret, M_ret, global, getattr, call_open_url,
    record, lift, raise, store, get_self in *; simpl in *.

(** ** The connector *)

Section connector.

Context (w : World).

Lemma retry_loop_S fuel url k :
  retry_loop w (S fuel) url k = try_except (attempt w url) (λ _, handler w fuel url k).
Proof. reflexivity. Qed.

Lemma handler_eq fuel url k r :
  handler w fuel url k r =
  match num_retries (self r) with
  | None => (Raise (AttributeError "num_retries"), r)
  | Some n =>
      if k + 1 >=? n
      then (Raise (RuntimeError [Lit "Cannot successfully access the dataset"]), r)
      else retry_loop w fuel url (k + 1) r
  end.
Proof.
  unfold handler. run.
  destruct (num_retries (self r)) as [n|] eqn:E; simpl; [|done].
  rewrite E. simpl. by destruct (k + 1 >=? n).
Qed.

Lemma attempt_frame url r :
  self (attempt w url r).2 = self r ∧ (attempt w url r).1 ≠ OutOfFuel.
Proof.
  unfold attempt. run.
  destruct (open_url w) as [f|]; simpl; [|done].
  destruct (session (self r)); simpl; [|done].
  destruct (f _ url) as [st|e]; simpl; [|done].
  by destruct (PydapDataStore w st).
Qed.

Lemma retry_loop_self fuel url k r :
  self (retry_loop w fuel url k r).2 = self r.
Proof.
  revert k r. induction fuel as [|fuel IH]; intros k r; [done|].
  rewrite retry_loop_S. unfold try_except.
  destruct (attempt_frame url r) as [Hs _].
  destruct (attempt w url r) as [[ds|e|] r1]; simpl in *; try done.
  rewrite handler_eq, Hs.
  destruct (num_retries (self r)) as [n|]; simpl; [|done].
  destruct (k + 1 >=? n); simpl; [done|]. by rewrite IH.
Qed.

Lemma retry_loop_total fuel url k r :
  match num_retries (self r) with
  | Some n => (1 ≤ fuel ∧ Z.to_nat (n - k) ≤ fuel)%nat
  | None => (1 ≤ fuel)%nat
  end →
  (retry_loop w fuel url k r).1 ≠ OutOfFuel.
Proof.
  revert k r. induction fuel as [|fuel IH]; intros k r Hf.
  { destruct (num_retries (self r)); lia. }
  rewrite retry_loop_S. unfold try_except.
  destruct (attempt_frame url r) as [Hs Hn].
  destruct (attempt w url r) as [[ds|e|] r1]; simpl in *; try done.
  rewrite handler_eq, Hs.
  destruct (num_retries (self r)) as [n|] eqn:Hnr; simpl; [|done].
  destruct (k + 1 >=? n) eqn:Hk; simpl; [done|].
  apply IH. rewrite Hs, Hnr. lia.
Qed.

Lemma fetch_total p d r : (fetch w p d r).1 ≠ OutOfFuel.
Proof.
  unfold fetch. run.
  destruct (datastores (self r) !! d) as [x|] eqn:Hd; simpl.
  { unfold getitem. by rewrite Hd. }
  set (r0 := {| self := self r; calls := calls r ++ [CallFetch p d] |}).
  pose proof (retry_loop_total (retry_fuel (self r)) (url_of p d) 0 r0) as Ht.
  pose proof (retry_loop_self (retry_fuel (self r)) (url_of p d) 0 r0) as Hs.
  destruct (retry_loop w (retry_fuel (self r)) (url_of p d) 0 r0) as [[ds|e|] r1];
    simpl in *; try done.
  - destruct (open_dataset w ds); simpl; [|done].
    unfold getitem. by rewrite lookup_insert_eq.
  - exfalso. apply Ht; [|done]. unfold retry_fuel. destruct (num_retries (self r)); lia.
Qed.

(** [fetch], case by case. *)
Lemma fetch_cases p d r :
  let r0 := called (CallFetch p d) r in
  match datastores (self r) !! d with
  | Some x => fetch w p d r = (Return x, r0)
  | None =>
      match retry_loop w (retry_fuel (self r)) (url_of p d) 0 r0 with
      | (Return data_store, r1) =>
          match open_dataset w data_store with
          | Ok x => fetch w p d r = (Return x, cached d x (called CallOpenDataset r1))
          | Err e => fetch w p d r = (Raise e, called CallOpenDataset r1)
          end
      | (Raise e, r1) => fetch w p d r = (Raise e, r1)
      | (OutOfFuel, r1) => fetch w p d r = (OutOfFuel, r1)
      end
  end.
Proof.
  unfold fetch, called, cached. run.
  destruct (datastores (self r) !! d) as [x|] eqn:Hd; simpl.
  { unfold getitem. by rewrite Hd. }
  destruct (retry_loop _ _ _ _ _) as [[ds|e|] r1]; simpl; try done.
  destruct (open_dataset w ds); simpl; [|done].
  unfold getitem. by rewrite lookup_insert_eq.
Qed.

Lemma attempt_eq f s url r :
  open_url w = Some f → session (self r) = Some s →
  attempt w url r =
  (match try_open w f (opens r) url with
   | Ok st => Return st
   | Err e => Raise e
   end, called (CallOpenUrl url) r).
Proof.
  intros Hf Hs. unfold attempt, try_open, opens, called. run.
  rewrite Hf. simpl. rewrite Hs. simpl.
  destruct (f _ url) as [st|e]; simpl; [|done].
  by destruct (PydapDataStore w st).
Qed.

Lemma opens_called url r : opens (called (CallOpenUrl url) r) = S (opens r).
Proof.
  unfold opens, called. simpl. rewrite filter_app, length_app.
  change (length (filter (λ c, is_open_url c = true) [CallOpenUrl url])) with 1%nat. lia.
Qed.

Lemma called_n_S n c r : called_n n c (called c r) = called_n (S n) c r.
Proof. unfold called_n, called. simpl. by rewrite <- app_assoc. Qed.

(** The loop on an object whose attributes are set: [j] failed tries and
    then a successful one, within the bound. *)
Lemma retry_loop_succeeds f s n url st j : ∀ fuel k r,
  open_url w = Some f → session (self r) = Some s →
  num_retries (self r) = Some n →
  (∀ i, (i < j)%nat → ∃ e, try_open w f (opens r + i) url = Err e) →
  try_open w f (opens r + j) url = Ok st →
  k + Z.of_nat j < n → (j < fuel)%nat →
  retry_loop w fuel url k r = (Return st, called_n (S j) (CallOpenUrl url) r).
Proof.
  induction j as [|j IH]; intros fuel k r Hf Hs Hn Hfail Hok Hk Hfuel.
  - destruct fuel as [|fuel]; [lia|]. rewrite retry_loop_S. unfold try_except.
    rewrite (attempt_eq f s) by done. rewrite Nat.add_0_r in Hok. rewrite Hok.
    unfold called_n, called. done.
  - destruct fuel as [|fuel]; [lia|]. rewrite retry_loop_S. unfold try_except.
    rewrite (attempt_eq f s) by done.
    destruct (Hfail 0%nat) as [e He]; [lia|]. rewrite Nat.add_0_r in He. rewrite He.
    rewrite handler_eq. simpl. rewrite Hn.
    destruct (k + 1 >=? n) eqn:Hge; [lia|].
    rewrite (IH fuel (k + 1) (called (CallOpenUrl url) r)); try done; try lia.
    + by rewrite called_n_S.
    + intros i Hi. rewrite opens_called.
      destruct (Hfail (S i)) as [e' He']; [lia|]. exists e'.
      by replace (S (opens r) + i)%nat with (opens r + S i)%nat by lia.
    + rewrite opens_called.
      by replace (S (opens r) + j)%nat with (opens r + S j)%nat by lia.
Qed.

(** The loop on an object whose attributes are set: as many failed tries
    as the bound allows. *)
Lemma retry_loop_gives_up f s n url j : ∀ fuel k r,
  open_url w = Some f → session (self r) = Some s →
  num_retries (self r) = Some n →
  (∀ i, (i ≤ j)%nat → ∃ e, try_open w f (opens r + i) url = Err e) →
  k + Z.of_nat j < n → n ≤ k + Z.of_nat j + 1 → (j < fuel)%nat →
  retry_loop w fuel url k r =
  (Raise (RuntimeError [Lit "Cannot successfully access the dataset"]),
   called_n (S j) (CallOpenUrl url) r).
Proof.
  induction j as [|j IH]; intros fuel k r Hf Hs Hn Hfail Hk Hk' Hfuel.
  - destruct fuel as [|fuel]; [lia|]. rewrite retry_loop_S. unfold try_except.
    rewrite (attempt_eq f s) by done.
    destruct (Hfail 0%nat) as [e He]; [lia|]. rewrite Nat.add_0_r in He. rewrite He.
    rewrite handler_eq. simpl. rewrite Hn.
    destruct (k + 1 >=? n) eqn:Hge; [|lia]. done.
  - destruct fuel as [|fuel]; [lia|]. rewrite retry_loop_S. unfold try_except.
    rewrite (attempt_eq f s) by done.
    destruct (Hfail 0%nat) as [e He]; [lia|]. rewrite Nat.add_0_r in He. rewrite He.
    rewrite handler_eq. simpl. rewrite Hn.
    destruct (k + 1 >=? n) eqn:Hge; [lia|].
    rewrite (IH fuel (k + 1) (called (CallOpenUrl url) r)); try done; try lia.
    + by rewrite called_n_S.
    + intros i Hi. rewrite opens_called.
      destruct (Hfail (S i)) as [e' He']; [lia|]. exists e'.
      by replace (S (opens r) + i)%nat with (opens r + S i)%nat by lia.
Qed.

Lemma init_fresh n me : __init__ w n = Ok me → me = fresh.
Proof. unfold __init__. destruct (login w); intros H; by simplify_eq. Qed.

Lemma attempt_unconfigured url r :
  session (self r) = None → ∃ e, attempt w url r = (Raise e, r).
Proof.
  intros Hs. unfold attempt. run.
  destruct (open_url w); simpl; [|by eexists].
  rewrite Hs. by eexists.
Qed.

(** On an object without [session] and [num_retries], the first try fails
    before any call, and the handler fails on [self.num_retries]. *)
Lemma fetch_unconfigured p d r :
  datastores (self r) !! d = None →
  session (self r) = None → num_retries (self r) = None →
  fetch w p d r = (Raise (AttributeError "num_retries"), called (CallFetch p d) r).
Proof.
  intros Hd Hs Hn. pose proof (fetch_cases p d r) as Hc. simpl in Hc.
  rewrite Hd in Hc. unfold retry_fuel in Hc. rewrite Hn in Hc.
  rewrite retry_loop_S in Hc. unfold try_except in Hc.
  destruct (attempt_unconfigured (url_of p d) (called (CallFetch p d) r)) as [e He];
    [done|].
  rewrite He, handler_eq in Hc. simpl in Hc. by rewrite Hn in Hc.
Qed.

Lemma fetch_self_or_cached p d r :
  self (fetch w p d r).2 = self r ∨
  ∃ x, datastores (self r) !! d = None ∧ (fetch w p d r).1 = Return x ∧
       self (fetch w p d r).2 =
       {| datastores := <[d := x]> (datastores (self r));
          num_retries := num_retries (self r); session := session (self r) |}.
Proof.
  pose proof (fetch_cases p d r) as Hc. simpl in Hc.
  destruct (datastores (self r) !! d) as [x|] eqn:Hd.
  { rewrite Hc. by left. }
  pose proof (retry_loop_self (retry_fuel (self r)) (url_of p d) 0
                (called (CallFetch p d) r)) as Hs.
  destruct (retry_loop _ _ _ _ _) as [[ds|e|] r1]; simpl in *.
  - destruct (open_dataset w ds) as [x|e]; rewrite Hc; simpl.
    + right. exists x. by rewrite Hs.
    + by left.
  - rewrite Hc. by left.
  - rewrite Hc. by left.
Qed.

Lemma fetch_cache_grows p d r :
  datastores (self r) ⊆ datastores (self (fetch w p d r).2).
Proof.
  destruct (fetch_self_or_cached p d r) as [->|(x & Hd & _ & ->)]; [done|].
  simpl. by apply insert_subseteq.
Qed.

Lemma fetch_all_cache_grows requests r :
  datastores (self r) ⊆ datastores (self (fetch_all w requests r)).
Proof.
  revert r. induction requests as [|q requests IH]; intros r; [done|].
  simpl. etrans; [apply (fetch_cache_grows q.1 q.2)|apply IH].
Qed.

Lemma fetch_hit p d r x :
  datastores (self r) !! d = Some x →
  fetch w p d r = (Return x, called (CallFetch p d) r).
Proof. intros Hd. pose proof (fetch_cases p d r) as Hc. simpl in Hc. by rewrite Hd in Hc. Qed.

Lemma fetch_returns_cached p d r x r1 :
  fetch w p d r = (Return x, r1) → datastores (self r1) !! d = Some x.
Proof.
  intros Hf. pose proof (fetch_cases p d r) as Hc. simpl in Hc.
  destruct (datastores (self r) !! d) as [y|] eqn:Hd.
  { rewrite Hc in Hf. by simplify_eq. }
  destruct (retry_loop _ _ _ _ _) as [[ds|e|] r0]; simpl in *; [|congruence..].
  destruct (open_dataset w ds) as [y|e]; [|congruence].
  rewrite Hc in Hf. simplify_eq. simpl. by rewrite lookup_insert_eq.
Qed.

(** C9. When [fetch] raises, the object (and so its cache) is as it was
    before the call. When it returns, either the dataset was cached and the
    object is unchanged, or the loop returned a store, [xr.open_dataset]
    opened it, and the cache is the old one with that one entry added.
    [fetch] never runs out of fuel. *)
Theorem fetch_atomic p d r :
  match fetch w p d r with
  | (Raise _, r1) => self r1 = self r
  | (Return x, r1) =>
      (datastores (self r) !! d = Some x ∧ self r1 = self r) ∨
      (datastores (self r) !! d = None ∧
       datastores (self r1) = <[d := x]> (datastores (self r)) ∧
       ∃ data_store r0,
         retry_loop w (retry_fuel (self r)) (url_of p d) 0 (called (CallFetch p d) r)
           = (Return data_store, r0) ∧
         open_dataset w data_store = Ok x)
  | (OutOfFuel, _) => False
  end.
Proof.
  pose proof (fetch_cases p d r) as Hc. simpl in Hc.
  pose proof (fetch_total p d r) as Ht.
  destruct (datastores (self r) !! d) as [y|] eqn:Hd.
  { rewrite Hc. by left. }
  pose proof (retry_loop_self (retry_fuel (self r)) (url_of p d) 0
                (called (CallFetch p d) r)) as Hs.
  destruct (retry_loop _ _ _ _ _) as [[ds|e|] r0] eqn:Hl; simpl in *.
  - destruct (open_dataset w ds) as [y|e] eqn:Ho; rewrite Hc; simpl; [|done].
    right. rewrite Hs. split_and!; [done..|]. by exists ds, r0.
  - by rewrite Hc.
  - rewrite Hc in Ht. done.
Qed.

Lemma opens_called_fetch p d r : opens (called (CallFetch p d) r) = opens r.
Proof.
  unfold opens, called. simpl. rewrite filter_app, length_app.
  change (length (filter (λ c, is_open_url c = true) [CallFetch p d])) with 0%nat. lia.
Qed.

Lemma fetch_configured_returns f s n p d r st x :
  datastores (self r) !! d = None →
  open_url w = Some f → session (self r) = Some s → num_retries (self r) = Some n →
  1 ≤ n →
  (∀ i, (i < Z.to_nat (n - 1))%nat → ∃ e, try_open w f (opens r + i) (url_of p d) = Err e) →
  try_open w f (opens r + Z.to_nat (n - 1)) (url_of p d) = Ok st →
  open_dataset w st = Ok x →
  fetch w p d r =
  (Return x,
   cached d x (called CallOpenDataset
     (called_n (Z.to_nat n) (CallOpenUrl (url_of p d)) (called (CallFetch p d) r)))).
Proof.
  intros Hd Hf Hs Hn Hn1 Hfail Hok Hx.
  pose proof (fetch_cases p d r) as Hc. simpl in Hc. rewrite Hd in Hc.
  rewrite (retry_loop_succeeds f s n (url_of p d) st (Z.to_nat (n - 1))) in Hc;
    try done.
  - rewrite Hx in Hc. rewrite Hc. by replace (S (Z.to_nat (n - 1))) with (Z.to_nat n) by lia.
  - intros i Hi. rewrite opens_called_fetch. by apply Hfail.
  - by rewrite opens_called_fetch.
  - lia.
  - unfold retry_fuel. rewrite Hn. lia.
Qed.

Lemma fetch_configured_gives_up f s n p d r :
  datastores (self r) !! d = None →
  open_url w = Some f → session (self r) = Some s → num_retries (self r) = Some n →
  1 ≤ n →
  (∀ i, (i < Z.to_nat n)%nat → ∃ e, try_open w f (opens r + i) (url_of p d) = Err e) →
  fetch w p d r =
  (Raise (RuntimeError [Lit "Cannot successfully access the dataset"]),
   called_n (Z.to_nat n) (CallOpenUrl (url_of p d)) (called (CallFetch p d) r)).
Proof.
  intros Hd Hf Hs Hn Hn1 Hfail.
  pose proof (fetch_cases p d r) as Hc. simpl in Hc. rewrite Hd in Hc.
  rewrite (retry_loop_gives_up f s n (url_of p d) (Z.to_nat (n - 1))) in Hc;
    try done.
  - rewrite Hc. by replace (S (Z.to_nat (n - 1))) with (Z.to_nat n) by lia.
  - intros i Hi. rewrite opens_called_fetch. apply Hfail. lia.
  - lia.
  - lia.
  - unfold retry_fuel. rewrite Hn. lia.
Qed.

End connector.

(** C5. Once a [fetch] of a dataset has returned, the handle is in the
    cache; whatever calls of [fetch] follow, on whatever state of the
    world, no entry of the cache is removed or replaced, and a later
    [fetch] of the same dataset returns the same handle and records nothing
    but its own invocation: no remote open. *)
Theorem fetch_opens_once w p d r x r1 :
  fetch w p d r = (Return x, r1) →
  datastores (self r) ⊆ datastores (self r1) ∧
  datastores (self r1) !! d = Some x ∧
  (∀ w' requests r', datastores (self r') ⊆ datastores (self (fetch_all w' requests r'))) ∧
  ∀ w' requests p',
    let r2 := fetch_all w' requests r1 in
    datastores (self r2) !! d = Some x ∧
    fetch w' p' d r2 = (Return x, called (CallFetch p' d) r2).
Proof.
  intros Hf.
  assert (datastores (self r1) !! d = Some x) as Hx by by eapply fetch_returns_cached.
  split_and!; [|done|intros; apply fetch_all_cache_grows|].
  - pose proof (fetch_cache_grows w p d r) as Hg. by rewrite Hf in Hg.
  - intros w' requests p' r2.
    assert (datastores (self r2) !! d = Some x) as Hx2
      by (eapply lookup_weaken; [exact Hx|apply fetch_all_cache_grows]).
    split; [done|]. by apply fetch_hit.
Qed.

Example fetch_nine_failures :
  (fetch (stub_world 9 ∅) "med" "d" (mkRun (configured 10) [])).1 = Return ∅.
Proof. vm_compute. reflexivity. Qed.

Example fetch_ten_failures :
  (fetch (stub_world 10 ∅) "med" "d" (mkRun (configured 10) [])).1
  = Raise (RuntimeError [Lit "Cannot successfully access the dataset"]).
Proof. vm_compute. reflexivity. Qed.

(** C2. The claim says that the retry bound is the constructor argument
    [num_retries]. The constructor stores neither that argument nor a
    session, so on the object it builds with [num_retries = 10] the first
    failure inside the [try] block is followed by an [AttributeError] from
    the handler, whatever the stub connector would do: after 9 failures it
    returns no handle, after 10 it does not raise the unreachable error.
    [fetch_configured_returns] and [fetch_configured_gives_up] show that the
    loop itself counts as the claim says once the attributes are set. *)
Theorem fetch_after_init_ignores_num_retries (fails : nat) (content : xr.Dataset) :
  ∃ me, __init__ (stub_world fails content) 10 = Ok me ∧
    num_retries me = None ∧
    ∀ made, fetch (stub_world fails content) "med" "med-cmcc-tem-rean-d" (mkRun me made)
      = (Raise (AttributeError "num_retries"),
         mkRun me (made ++ [CallFetch "med" "med-cmcc-tem-rean-d"])).
Proof.
  exists fresh. split_and!; [done..|]. intros made.
  by rewrite fetch_unconfigured.
Qed.

(** ** The registry and [get_value] *)

Lemma feature_params_descriptor what params :
  _feature_params !! what = Some params →
  ∃ dataset_id variable slice_mode has_depth date_limit,
    params = descriptor dataset_id variable slice_mode has_depth date_limit
    ∧ dataset_id ≠ "" ∧ variable ≠ "".
Proof.
  unfold _feature_params.
  repeat (rewrite list_to_map_cons, lookup_insert; case_decide;
          [intros [= <-]; by repeat eexists|]).
  by rewrite list_to_map_nil, lookup_empty.
Qed.

Lemma descriptor_keys i v m h l :
  dom (descriptor i v m h l)
  = ({["dataset_id"; "variable"; "slice_mode"; "has_depth"; "date_limit"]} : gset string).
Proof. unfold descriptor. simpl. rewrite !dom_insert_L, dom_empty_L. set_solver. Qed.

Lemma descriptor_lookup i v m h l k :
  descriptor i v m h l !! k =
  if decide (k = "dataset_id") then Some (VStr i)
  else if decide (k = "variable") then Some (VStr v)
  else if decide (k = "slice_mode") then Some (VStr m)
  else if decide (k = "has_depth") then Some (VBool h)
  else if decide (k = "date_limit") then Some (VDate l)
  else None.
Proof.
  unfold descriptor. simpl.
  repeat (rewrite lookup_insert; case_decide; [by simplify_eq|];
          case_decide; [by simplify_eq|]).
  by rewrite lookup_empty.
Qed.

(** No entry of the registry has the keys that [get_value] reads for the
    connector and for the variable. *)
Lemma registry_lacks_query_keys what params :
  _feature_params !! what = Some params →
  params !! "prefix" = None ∧ params !! "dataset" = None ∧ params !! "field" = None ∧
  dom params
  = ({["dataset_id"; "variable"; "slice_mode"; "has_depth"; "date_limit"]} : gset string).
Proof.
  intros (i & v & m & h & l & -> & _)%feature_params_descriptor.
  rewrite !descriptor_lookup, descriptor_keys. by split_and!.
Qed.

(** The variable of a feature is never one of the index keys of the
    table. *)
Lemma registry_variables_are_not_keys what params v :
  _feature_params !! what = Some params → params !! "variable" = Some (VStr v) →
  v ∉ ["time"; "lon"; "lat"; "longitude"; "latitude"; "depth"].
Proof.
  unfold _feature_params.
  repeat (rewrite list_to_map_cons, lookup_insert; case_decide;
          [intros [= <-]; rewrite descriptor_lookup; simpl; intros [= <-];
           apply (bool_decide_unpack _); by vm_compute|]).
  by rewrite list_to_map_nil, lookup_empty.
Qed.

Lemma get_value_with_unknown registry w date long_lat depth what reduction r :
  registry !! what = None →
  get_value_with registry w date long_lat depth what reduction r
  = (Raise (unknown_feature what), r).
Proof. intros H. unfold get_value_with. by rewrite H. Qed.

Lemma get_value_with_before registry w date long_lat depth what reduction r params limit :
  registry !! what = Some params →
  params !! "date_limit" = Some (VDate limit) →
  datetime.ltb (first_date date) limit = true →
  get_value_with registry w date long_lat depth what reduction r
  = (Raise (undefined_before what limit), r).
Proof.
  intros H Hl Hb. unfold get_value_with. rewrite H. run.
  unfold getitem. rewrite Hl. simpl. by rewrite Hb.
Qed.

Lemma get_value_with_no_prefix registry w date long_lat depth what reduction r params limit :
  registry !! what = Some params →
  params !! "date_limit" = Some (VDate limit) →
  datetime.ltb (first_date date) limit = false →
  params !! "prefix" = None →
  get_value_with registry w date long_lat depth what reduction r
  = (Raise (KeyError "prefix"), r).
Proof.
  intros H Hl Hb Hp. unfold get_value_with. rewrite H. run.
  unfold getitem. rewrite Hl. simpl. rewrite Hb. by rewrite Hp.
Qed.

(** Past the validity test, [get_value] stops at [params["prefix"]] for
    every feature of the registry. *)
Lemma get_value_registered w date long_lat depth what reduction r params :
  _feature_params !! what = Some params →
  ∃ limit, params !! "date_limit" = Some (VDate limit) ∧
    get_value w date long_lat depth what reduction r =
    if datetime.ltb (first_date date) limit
    then (Raise (undefined_before what limit), r)
    else (Raise (KeyError "prefix"), r).
Proof.
  intros H. destruct (feature_params_descriptor _ _ H) as (i & v & m & h & l & -> & _).
  exists l. split; [by rewrite descriptor_lookup|].
  destruct (datetime.ltb (first_date date) l) eqn:Hb.
  - by eapply get_value_with_before; [done|rewrite descriptor_lookup|].
  - by eapply get_value_with_no_prefix; [done|rewrite descriptor_lookup|..].
Qed.

(** [get_value] ends: in a value or in an exception. *)
Lemma get_value_with_total registry w date long_lat depth what reduction r :
  (get_value_with registry w date long_lat depth what reduction r).1 ≠ OutOfFuel.
Proof.
  unfold get_value_with. destruct (registry !! what) as [params|]; [|done]. run.
  repeat match goal with
         | |- context [match ?x with Ok _ => _ | Err _ => _ end] =>
             destruct x; simpl; try done
         | |- context [if ?b then _ else _] => destruct b; simpl; try done
         | |- context [fetch ?w ?p ?d ?r] =>
             let H := fresh in
             pose proof (fetch_total w p d r) as H;
             destruct (fetch w p d r) as [[?|?|] ?]; simpl in *; try done
         end.
Qed.

(** C1. The claim says that the missing registry keys are silently
    coerced and that [get_value] goes on to invoke the connector. On the
    query of [examples/example-cmems-001.py] (temperature on 2020-07-31, a
    date after the validity start) the code does neither: [params["prefix"]]
    raises [KeyError], the state is left as it was, and [fetch] is not
    called. [get_value_registered] shows the same for every feature of the
    registry. *)
Theorem get_value_example_stops_at_prefix w r :
  get_value w (Point (datetime.mk 2020 7 31 0 0 0 0))
    (Point (-295 # 100)%Q, Point (3532 # 100)%Q) (Point (83 # 10)%Q) "temperature" None r
  = (Raise (KeyError "prefix"), r).
Proof.
  destruct (get_value_registered w (Point (datetime.mk 2020 7 31 0 0 0 0))
              (Point (-295 # 100)%Q, Point (3532 # 100)%Q) (Point (83 # 10)%Q)
              "temperature" None r
              (descriptor "med-cmcc-tem-rean-d" "thetao" "lon-lat" true
                 (datetime.of_dmy 1 1 1987)) eq_refl) as (limit & Hl & Hg).
  rewrite descriptor_lookup in Hl. simpl in Hl. by simplify_eq.
Qed.

(** C3. For a feature of the registry and a query whose date (or the
    first date of a range) is before the validity start recorded for the
    feature, [get_value] raises the error "Cannot get <feature> before
    <date>" and leaves the state as it was: no call of [fetch], no remote
    call. *)
Theorem get_value_before_validity w date long_lat depth what reduction r params limit :
  _feature_params !! what = Some params →
  params !! "date_limit" = Some (VDate limit) →
  datetime.ltb (first_date date) limit = true →
  get_value w date long_lat depth what reduction r
  = (Raise (undefined_before what limit), r).
Proof. apply get_value_with_before. Qed.

(** Chlorophyll is valid from 1999-01-01: a query for 1998-12-31. *)
Lemma get_value_before_validity_witness :
  get_value (stub_world 0 ∅) (Point (datetime.mk 1998 12 31 0 0 0 0))
    (Point 0%Q, Point 0%Q) (Point 0%Q) "chlorophyl-a" None (mkRun fresh [])
  = (Raise (undefined_before "chlorophyl-a" (datetime.of_dmy 1 1 1999)), mkRun fresh []).
Proof.
  apply (get_value_before_validity _ _ _ _ _ _ _
           (descriptor "med-ogs-pft-rean-d" "chl" "longitude-latitude" true
              (datetime.of_dmy 1 1 1999))); reflexivity.
Defined.

(** C4. For a name that is not in the registry, [get_value] raises the
    unknown-feature error and leaves the state as it was (no call of
    [fetch], no remote call); for a name of the registry the lookup gives
    its descriptor, with a dataset identifier and a variable that are not
    empty, a slice mode, a depth flag and a validity start, and the
    unknown-feature error is not raised. *)
Theorem get_value_feature_lookup w date long_lat depth what reduction r :
  match _feature_params !! what with
  | None =>
      get_value w date long_lat depth what reduction r = (Raise (unknown_feature what), r)
  | Some params =>
      getitem _feature_params what = Ok params ∧
      (∃ dataset_id variable slice_mode has_depth date_limit,
         params = descriptor dataset_id variable slice_mode has_depth date_limit
         ∧ dataset_id ≠ "" ∧ variable ≠ "") ∧
      (get_value w date long_lat depth what reduction r).1 ≠ Raise (unknown_feature what)
  end.
Proof.
  destruct (_feature_params !! what) as [params|] eqn:H.
  - split_and!.
    + unfold getitem. by rewrite H.
    + by eapply feature_params_descriptor.
    + destruct (get_value_registered w date long_lat depth what reduction r _ H)
        as (limit & _ & ->).
      by destruct (datetime.ltb _ _).
  - by apply get_value_with_unknown.
Qed.

Lemma f_slice_other_reduction reduction :
  reduction ≠ Some (VStr "mean") → f_slice reduction = f_slice None.
Proof.
  intros Hr. unfold f_slice.
  destruct (decide (reduction = Some (VStr "mean"))); [done|].
  by destruct (decide (None = Some (VStr "mean"))).
Qed.

Lemma f_slice_table_unless_mean reduction ds mode date long_lat depth has_depth res sc :
  reduction ≠ Some (VStr "mean") →
  f_slice reduction ds mode date long_lat depth has_depth = Ok (res, sc) →
  ∃ df, res = Table df.
Proof.
  intros Hr. unfold f_slice.
  destruct (decide (reduction = Some (VStr "mean"))); [done|].
  unfold mbind, result_bind. intros H.
  repeat match type of H with
         | match ?x with Ok _ => _ | Err _ => _ end = _ =>
             destruct x; try discriminate
         end.
  simplify_eq. by eexists.
Qed.

(** The only test on [reduction] is the comparison with "mean": any other
    value takes the branch of [None], in [f_slice] and so in [get_value],
    for any registry. *)
Lemma get_value_with_other_reduction reduction :
  reduction ≠ Some (VStr "mean") →
  (∀ ds mode date long_lat depth has_depth,
     f_slice reduction ds mode date long_lat depth has_depth
     = f_slice None ds mode date long_lat depth has_depth
     ∧ ∀ res sc, f_slice reduction ds mode date long_lat depth has_depth = Ok (res, sc) →
                 ∃ df, res = Table df) ∧
  (∀ registry w date long_lat depth what r,
     get_value_with registry w date long_lat depth what reduction r
     = get_value_with registry w date long_lat depth what None r).
Proof.
  intros Hr. split.
  - intros. split; [by rewrite f_slice_other_reduction|].
    intros res sc. by apply f_slice_table_unless_mean.
  - intros. unfold get_value_with. by rewrite (f_slice_other_reduction reduction).
Qed.

(** ** The slicer *)

Lemma key_lon_cases mode :
  (mode = VStr "lon-lat" ∧ key_lon mode = "lon" ∧ key_lat mode = "lat") ∨
  (mode ≠ VStr "lon-lat" ∧ key_lon mode = "longitude" ∧ key_lat mode = "latitude").
Proof. unfold key_lon, key_lat. destruct (decide (mode = VStr "lon-lat")); auto. Qed.

Lemma coords_definitions_selects mode date long_lat depth has_depth :
  let d := coords_definitions mode date long_lat depth has_depth in
  selects d (key_lon mode) (axis_map Num long_lat.1) ∧
  selects d (key_lat mode) (axis_map Num long_lat.2) ∧
  selects d "time" (axis_map Time date) ∧
  (if truthy has_depth then selects d "depth" (axis_map Num depth)
   else unselected d "depth") ∧
  slice_coords_definition d !! "method" = None ∧
  noslice_coords_definition d !! "method" = Some (xr.KStr "nearest").
Proof.
  unfold coords_definitions.
  destruct (key_lon_cases mode) as [(_ & -> & ->)|(_ & -> & ->)];
    destruct long_lat as [[x|x1 x2] [y|y1 y2]], date as [t|t1 t2], depth as [z|z1 z2],
      (truthy has_depth); repeat split; reflexivity.
Qed.

Lemma bind_Ok {A B} (m : result A) (f : A → result B) b :
  m ≫= f = Ok b → ∃ a, m = Ok a ∧ f a = Ok b.
Proof. destruct m as [a|e]; simpl; [by exists a|done]. Qed.

(** *** Selections *)

Lemma sel_one_kept method k labels ix kept :
  xr.sel_one method k labels ix = Ok (xr.Kept kept) →
  ∃ sl, ix = xr.KSlice sl ∧ method = None ∧
        kept = filter (λ e, xr.in_slice sl e.2) labels.
Proof.
  unfold xr.sel_one. destruct ix as [m|x|sl], method as [[m'|x'|sl']|]; simpl; try done.
  - destruct (String.eqb m' "nearest"); [|done].
    intros H. apply bind_Ok in H as ([[e q]|] & _ & H); done.
  - intros H. apply bind_Ok in H as (kept' & H & ?). simplify_eq.
    unfold xr.sel_slice in H.
    destruct (negb (forallb _ labels)); [done|].
    destruct (negb (xr.is_monotonic_increasing _)); [done|].
    simplify_eq. by exists sl.
Qed.

(** Every dimension left by a selection is a dimension of the array it
    was applied to: untouched when it has no indexer, restricted to the
    slice when it has one. *)
Lemma sel_dims_kept method ix ds r :
  xr.sel_dims method ix ds = Ok r →
  Forall (λ d', ∃ labels0, (d'.1, labels0) ∈ ds ∧
            ((ix !! d'.1 = None ∧ d'.2 = labels0) ∨
             (∃ sl, ix !! d'.1 = Some (xr.KSlice sl) ∧ method = None ∧
                    d'.2 = filter (λ e, xr.in_slice sl e.2) labels0))) r.1.
Proof.
  revert r. induction ds as [|[k labels] ds IH]; intros r; simpl.
  { intros ?; simplify_eq. constructor. }
  destruct (ix !! k) as [i|] eqn:Hk.
  - intros H. apply bind_Ok in H as (s & Hs & H). apply bind_Ok in H as (r' & Hr & H).
    specialize (IH _ Hr).
    assert (Forall (λ d', ∃ labels0, (d'.1, labels0) ∈ (k, labels) :: ds ∧
            ((ix !! d'.1 = None ∧ d'.2 = labels0) ∨
             (∃ sl, ix !! d'.1 = Some (xr.KSlice sl) ∧ method = None ∧
                    d'.2 = filter (λ e, xr.in_slice sl e.2) labels0))) r'.1) as IH'.
    { eapply Forall_impl; [exact IH|]. intros d' (l0 & Hin & Hc). exists l0.
      split; [by right|done]. }
    destruct s as [kept|e]; simplify_eq; simpl; [|done].
    constructor; [|done]. simpl.
    apply sel_one_kept in Hs as (sl & -> & -> & ->).
    exists labels. split; [by left|]. right. by exists sl.
  - intros H. apply bind_Ok in H as (r' & Hr & H). simplify_eq. simpl.
    specialize (IH _ Hr). constructor.
    + exists labels. split; [by left|]. by left.
    + eapply Forall_impl; [exact IH|]. intros d' (l0 & Hin & Hc). exists l0.
      split; [by right|done].
Qed.

(** A dimension that is not given a label stays a dimension. *)
Lemma sel_dims_stays method ix ds r k :
  xr.sel_dims method ix ds = Ok r →
  k ∈ ds.*1 → (∀ x, ix !! k ≠ Some (xr.KScalar x)) → k ∈ r.1.*1.
Proof.
  revert r. induction ds as [|[k' labels] ds IH]; intros r; simpl.
  { intros _ H. by apply elem_of_nil in H. }
  intros H Hin Hix. destruct (ix !! k') as [i|] eqn:Hk.
  - apply bind_Ok in H as (s & Hs & H). apply bind_Ok in H as (r' & Hr & H).
    destruct s as [kept|e]; simplify_eq; simpl.
    + apply elem_of_cons in Hin as [->|Hin]; [by left|]. right. by eapply IH.
    + apply elem_of_cons in Hin as [->|Hin]; [|by eapply IH].
      exfalso. unfold xr.sel_one in Hs.
      destruct i as [m|x|sl], method as [[m'|x'|sl']|]; simpl in Hs; try done.
      * by eapply Hix.
      * apply bind_Ok in Hs as (? & _ & ?). done.
  - apply bind_Ok in H as (r' & Hr & H). simplify_eq. simpl.
    apply elem_of_cons in Hin as [->|Hin]; [by left|]. right. by eapply IH.
Qed.

Lemma sel_inv kwargs da v :
  xr.sel kwargs da = Ok v →
  ∃ r, xr.sel_dims (kwargs !! "method") (delete "method" kwargs) (xr.dims da) = Ok r ∧
       (∀ k, k ≠ "method" → is_Some (kwargs !! k) → k ∈ (xr.dims da).*1) ∧
       xr.dims v = r.1 ∧ xr.name v = xr.name da ∧ xr.data v = xr.data da ∧
       xr.scalar_coords v = (xr.scalar_coords da ++ r.2)%list.
Proof.
  unfold xr.sel.
  destruct (filter _ _) as [|k0 rest] eqn:Hf; [|done].
  intros H. apply bind_Ok in H as (r & Hr & H). simplify_eq. exists r.
  split_and!; try done.
  intros k Hk [x Hx].
  destruct (decide (k ∈ (xr.dims da).*1)) as [|Hn]; [done|]. exfalso.
  assert (k ∈ filter (λ k, k ∉ (xr.dims da).*1) (map_to_list (delete "method" kwargs)).*1)
    as Hin.
  { apply list_elem_of_filter. split; [done|].
    apply list_elem_of_fmap. exists (k, x). split; [done|].
    apply elem_of_map_to_list. by rewrite lookup_delete_ne. }
  rewrite Hf in Hin. by apply elem_of_nil in Hin.
Qed.

Lemma f_slice_eq reduction ds mode date long_lat depth has_depth :
  f_slice reduction ds mode date long_lat depth has_depth =
  (values ← selection ds mode date long_lat depth has_depth;
   df_values ← table mode depth has_depth values;
   result ← reduce reduction df_values;
   sc ← selected_coordinates mode has_depth values;
   Ok (result, sc)).
Proof.
  unfold f_slice, selection, table, reduce, selected_coordinates, index_keys.
  unfold mbind, result_bind.
  destruct (xr.sel (slice_coords_definition _) _) as [v1|]; [|done].
  destruct (xr.sel (noslice_coords_definition _) _) as [values|]; [|done].
  destruct (xr.to_dataframe values) as [df0|]; [|done].
  destruct (pd.reset_index df0) as [df1|]; [|done].
  destruct (if negb (truthy has_depth) then _ else _) as [df2|]; [|done].
  destruct (pd.set_index _ df2) as [df3|]; [|done].
  destruct (pd.rename_index _ df3) as [df|]; [|done].
  destruct (decide (reduction = Some (VStr "mean"))).
  - destruct (pd.item (pd.mean df)); [|done].
    destruct (xr.coords_to_numpy values "time"); [|done].
    destruct (xr.coords_to_numpy values (key_lon mode)); [|done].
    destruct (xr.coords_to_numpy values (key_lat mode)); [|done].
    destruct (truthy has_depth); [|done].
    by destruct (xr.coords_to_numpy values "depth").
  - destruct (xr.coords_to_numpy values "time"); [|done].
    destruct (xr.coords_to_numpy values (key_lon mode)); [|done].
    destruct (xr.coords_to_numpy values (key_lat mode)); [|done].
    destruct (truthy has_depth); [|done].
    by destruct (xr.coords_to_numpy values "depth").
Qed.

Lemma f_slice_inv reduction ds mode date long_lat depth has_depth res sc :
  f_slice reduction ds mode date long_lat depth has_depth = Ok (res, sc) →
  ∃ values df,
    selection ds mode date long_lat depth has_depth = Ok values ∧
    table mode depth has_depth values = Ok df ∧
    reduce reduction df = Ok res ∧
    selected_coordinates mode has_depth values = Ok sc.
Proof.
  rewrite f_slice_eq. intros H.
  apply bind_Ok in H as (values & Hv & H). apply bind_Ok in H as (df & Hd & H).
  apply bind_Ok in H as (res' & Hr & H). apply bind_Ok in H as (sc' & Hs & H).
  simplify_eq. by exists values, df.
Qed.

(** *** Tables *)

Lemma key_lon_not_depth mode : key_lon mode ≠ "depth" ∧ key_lat mode ≠ "depth"
  ∧ key_lon mode ≠ "time" ∧ key_lat mode ≠ "time" ∧ key_lon mode ≠ key_lat mode.
Proof. by destruct (key_lon_cases mode) as [(_ & -> & ->)|(_ & -> & ->)]. Qed.

Lemma set_depth_rows depth df1 df2 :
  set_depth depth df1 = Ok df2 →
  pd.index_names df2 = pd.index_names df1 ∧
  pd.columns df2 = pd.add_column "depth" (pd.columns df1) ∧
  Forall2 (λ r1 r2, r2.1 = r1.1 ∧
             ∃ v, r2.2 = <["depth" := v]> r1.2 ∧ ∀ d, depth = Point d → v = Num d)
    (pd.rows df1) (pd.rows df2).
Proof.
  destruct depth as [d|lo hi]; simpl.
  - intros ?; simplify_eq. simpl. split_and!; [done..|].
    induction (pd.rows df1) as [|r rs IH]; simpl; constructor; [|done].
    split; [done|]. exists (Num d). split; [done|]. by intros ? [= ->].
  - unfold pd.setitem_seq. case_bool_decide as Hlen; [|done].
    intros ?; simplify_eq. simpl. split_and!; [done..|].
    revert Hlen. generalize [Num lo; Num hi]. intros vs.
    revert vs. induction (pd.rows df1) as [|r rs IH]; intros [|v vs] Hlen;
      simplify_eq/=; constructor.
    + split; [done|]. exists v. split; [done|]. by intros ? [=].
    + by apply IH.
Qed.

(** What [table] makes of each row of [values.to_dataframe()]. *)
Lemma table_rows mode depth has_depth values df :
  table mode depth has_depth values = Ok df →
  ∃ df0, xr.to_dataframe values = Ok df0 ∧
    pd.index_names df = ["time"; "longitude"; "latitude"; "depth"] ∧
    (∀ k, k ∈ pd.index_names df0 → k ∉ pd.columns df0) ∧
    (∀ k, k ∈ pd.columns df0 → k ∉ index_keys mode → k ∈ pd.columns df) ∧
    Forall2 (λ r0 r, ∃ cells,
               (if truthy has_depth then cells = reset_cells (pd.index_names df0) r0
                else ∃ v, cells = <["depth" := v]> (reset_cells (pd.index_names df0) r0)
                          ∧ ∀ d, depth = Point d → v = Num d) ∧
               r.1 = (λ k, default NaN (cells !! k)) <$> index_keys mode ∧
               r.2 = foldr (λ k m, delete k m) cells (index_keys mode))
      (pd.rows df0) (pd.rows df).
Proof.
  unfold table. intros H.
  apply bind_Ok in H as (df0 & H0 & H). apply bind_Ok in H as (df1 & H1 & H).
  apply bind_Ok in H as (df2 & H2 & H). apply bind_Ok in H as (df3 & H3 & H).
  exists df0. split; [done|].
  unfold pd.rename_index in H. case_bool_decide; [|done]. simplify_eq. simpl.
  unfold pd.set_index in H3. destruct (filter _ (index_keys mode)) eqn:Hk; [|done].
  simplify_eq. simpl.
  unfold pd.reset_index in H1.
  destruct (filter _ (pd.index_names df0)) eqn:Hi; [|done]. simplify_eq.
  split_and!; [done| | |].
  - intros k Hk0 Hc.
    assert (k ∈ filter (λ k, k ∈ pd.columns df0) (pd.index_names df0)) as Hin
      by by apply list_elem_of_filter.
    rewrite Hi in Hin. by apply elem_of_nil in Hin.
  - intros k Hc Hn. apply list_elem_of_filter. split; [done|].
    destruct (truthy has_depth); simpl in H2.
    + simplify_eq. simpl. apply elem_of_app. by right.
    + apply set_depth_rows in H2 as (_ & -> & _). simpl. unfold pd.add_column.
      case_bool_decide; [apply elem_of_app; by right|].
      apply elem_of_app. left. apply elem_of_app. by right.
  - destruct (truthy has_depth); simpl in H2.
    + simplify_eq. simpl. rewrite Forall2_fmap_r, Forall2_fmap_r.
      apply Forall_Forall2_diag, Forall_forall. intros r0 _. simpl.
      by exists (reset_cells (pd.index_names df0) r0).
    + apply set_depth_rows in H2 as (_ & _ & HF). simpl in HF.
      rewrite Forall2_fmap_l in HF. rewrite Forall2_fmap_r.
      eapply Forall2_impl; [exact HF|]. simpl.
      intros r0 r2 (Hr1 & v & Hr2 & Hv). exists (r2.2). rewrite Hr2.
      split_and!; [|done..]. by exists v.
Qed.

Lemma product_elem {A} (ls : list (list A)) (choice : list A) :
  choice ∈ xr.product ls → Forall2 (λ c l, c ∈ l) choice ls.
Proof.
  revert choice. induction ls as [|l ls IH]; intros choice; simpl.
  { intros ->%list_elem_of_singleton. constructor. }
  intros (x & Hc & Hx)%list_elem_of_bind.
  apply list_elem_of_fmap in Hc as (t & -> & Ht). constructor; auto.
Qed.

Lemma to_dataframe_inv values df0 :
  xr.to_dataframe values = Ok df0 →
  pd.index_names df0 = (xr.dims values).*1 ∧
  pd.columns df0 = ((xr.scalar_coords values).*1 ++ [xr.name values])%list ∧
  pd.rows df0 = map (xr.row_of values) (xr.product (xr.dims values).*2).
Proof.
  unfold xr.to_dataframe. destruct (xr.dims values); [done|].
  by intros ?; simplify_eq.
Qed.

(** The cell of a dimension in a row is one of the labels of a dimension
    of that name. *)
Lemma zip_dims_lookup (dims : list (string * list (nat * scalar)))
    (choice : list (nat * scalar)) k :
  Forall2 (λ c l, c ∈ l) choice dims.*2 → k ∈ dims.*1 →
  ∃ x labels, (list_to_map (zip dims.*1 choice.*2) : gmap string scalar) !! k = Some x
              ∧ (k, labels) ∈ dims ∧ x ∈ labels.*2.
Proof.
  revert choice. induction dims as [|[k' labels] dims IH]; intros choice HF Hk; simpl in *.
  { by apply elem_of_nil in Hk. }
  apply Forall2_cons_inv_r in HF as (c & choice' & Hc & HF & ->). simpl.
  destruct (decide (k' = k)) as [->|Hne].
  - exists c.2, labels. rewrite lookup_insert_eq. split_and!; [done|by left|].
    apply list_elem_of_fmap. by exists c.
  - apply elem_of_cons in Hk as [->|Hk]; [done|].
    destruct (IH _ HF Hk) as (x & labels' & Hx & Hin & Hl).
    exists x, labels'. rewrite lookup_insert_ne by done. split_and!; [done|by right|done].
Qed.

Lemma reset_cells_dim values df0 r0 k :
  xr.to_dataframe values = Ok df0 → r0 ∈ pd.rows df0 → k ∈ (xr.dims values).*1 →
  ∃ x labels, reset_cells (pd.index_names df0) r0 !! k = Some x
              ∧ (k, labels) ∈ xr.dims values ∧ x ∈ labels.*2.
Proof.
  intros (Hn & _ & Hr)%to_dataframe_inv Hin Hk. rewrite Hr in Hin.
  apply list_elem_of_fmap in Hin as (choice & -> & Hc%product_elem).
  destruct (zip_dims_lookup _ _ _ Hc Hk) as (x & labels & Hx & Hl & Hxl).
  exists x, labels. split_and!; [|done..].
  unfold reset_cells, xr.row_of. simpl. rewrite Hn.
  by apply lookup_union_Some_l.
Qed.

(** A key of the slice dictionary: the dimension is still there after both
    selections, and it holds only labels of the slice. *)
Lemma selection_sliced ds mode date long_lat depth has_depth values key sl :
  let d := coords_definitions mode date long_lat depth has_depth in
  selection ds mode date long_lat depth has_depth = Ok values →
  slice_coords_definition d !! key = Some (xr.KSlice sl) →
  noslice_coords_definition d !! key = None →
  key ∈ (xr.dims values).*1 ∧
  ∀ labels, (key, labels) ∈ xr.dims values → Forall (λ e, xr.in_slice sl e.2) labels.
Proof.
  intros d H Hs Hn. unfold selection in H. fold d in H.
  apply bind_Ok in H as (v1 & H1 & H2).
  apply sel_inv in H1 as (r1 & Hr1 & Hk1 & Hd1 & _).
  apply sel_inv in H2 as (r2 & Hr2 & Hk2 & Hd2 & _).
  assert (key ≠ "method") as Hm.
  { intros ->. pose proof (coords_definitions_selects mode date long_lat depth has_depth)
      as (_ & _ & _ & _ & Hsm & _). fold d in Hsm. congruence. }
  split.
  - rewrite Hd2. eapply sel_dims_stays; [exact Hr2| |].
    + rewrite Hd1. eapply sel_dims_stays; [exact Hr1| |].
      * apply Hk1; [done|]. by rewrite Hs.
      * intros x. rewrite lookup_delete_ne by done. by rewrite Hs.
    + intros x. rewrite lookup_delete_ne by done. by rewrite Hn.
  - intros labels Hin. rewrite Hd2 in Hin.
    apply sel_dims_kept in Hr2. rewrite Forall_forall in Hr2.
    destruct (Hr2 _ Hin) as (l0 & Hin1 & Hc). simpl in *.
    destruct Hc as [[_ <-]|(sl' & _ & Hmeth & _)]; last first.
    { pose proof (coords_definitions_selects mode date long_lat depth has_depth)
        as (_ & _ & _ & _ & _ & Hnm). fold d in Hnm. congruence. }
    rewrite Hd1 in Hin1. apply sel_dims_kept in Hr1. rewrite Forall_forall in Hr1.
    destruct (Hr1 _ Hin1) as (l1 & _ & Hc). simpl in *.
    rewrite lookup_delete_ne in Hc by done. rewrite Hs in Hc.
    destruct Hc as [[? _]|(sl' & ? & _ & ->)]; [done|]. simplify_eq.
    apply Forall_forall. by intros e (? & _)%list_elem_of_filter.
Qed.

Lemma in_slice_num lo hi x :
  xr.in_slice (xr.Slice (Num lo) (Num hi)) x →
  ∃ q, x = Num q ∧ (lo <= q)%Q ∧ (q <= hi)%Q.
Proof.
  unfold xr.in_slice. simpl. intros [H1 H2]%andb_prop_elim.
  destruct x as [q| |t]; simpl in *; try done.
  exists q. split; [done|]. split; apply Qle_bool_iff; by apply Is_true_true.
Qed.

Lemma reduce_table reduction df df' :
  reduce reduction df = Ok (Table df') → df' = df.
Proof.
  unfold reduce. destruct (decide _).
  - intros H. apply bind_Ok in H as (? & _ & ?). done.
  - by intros ?; simplify_eq.
Qed.

(** C6, as worded, fails for the depth axis of a feature without depth:
    a range of depths is given no slice. *)
Lemma depthless_range_is_not_sliced :
  ¬ selects_every_axis (VStr "lon-lat") (Point (datetime.mk 2020 7 31 0 0 0 0))
      (Point 0%Q, Point 0%Q) (Range 0%Q 10%Q) (VBool false).
Proof. intros (_ & _ & [H _] & _). vm_compute in H. discriminate. Qed.

(** C6, amended. For longitude, latitude and time, and for depth when
    the feature has a depth axis, a range is passed as a slice of the first
    selection and a scalar as a label of the second, nearest-point
    selection, under the key of the feature's naming ([lon]/[lat] for
    "lon-lat", [longitude]/[latitude] otherwise); for a feature without
    depth no depth key is passed. So for a range [(lo, hi)] of longitudes,
    every row of a table that [f_slice] returns has a longitude level
    between [lo] and [hi]. *)
Theorem f_slice_selects_by_axis reduction ds mode date lo hi lat depth has_depth df sc :
  let d := coords_definitions mode date (Range lo hi, lat) depth has_depth in
  f_slice reduction ds mode date (Range lo hi, lat) depth has_depth = Ok (Table df, sc) →
  (∀ date' long_lat' depth',
     let d' := coords_definitions mode date' long_lat' depth' has_depth in
     selects d' (key_lon mode) (axis_map Num long_lat'.1) ∧
     selects d' (key_lat mode) (axis_map Num long_lat'.2) ∧
     selects d' "time" (axis_map Time date') ∧
     (if truthy has_depth then selects d' "depth" (axis_map Num depth')
      else unselected d' "depth") ∧
     noslice_coords_definition d' !! "method" = Some (xr.KStr "nearest")) ∧
  (∃ v1 values,
     xr.sel (slice_coords_definition d) (xr.drop_duplicates ds) = Ok v1 ∧
     xr.sel (noslice_coords_definition d) v1 = Ok values ∧
     table mode depth has_depth values = Ok df) ∧
  pd.index_names df !! 1%nat = Some "longitude" ∧
  ∀ r, r ∈ pd.rows df → ∃ x, r.1 !! 1%nat = Some (Num x) ∧ (lo <= x)%Q ∧ (x <= hi)%Q.
Proof.
  intros d H. split.
  { intros date' long_lat' depth'.
    pose proof (coords_definitions_selects mode date' long_lat' depth' has_depth)
      as (? & ? & ? & ? & _ & ?). done. }
  apply f_slice_inv in H as (values & df' & Hsel & Htab & Hred & _).
  apply reduce_table in Hred as ->.
  pose proof (coords_definitions_selects mode date (Range lo hi, lat) depth has_depth)
    as ([Hs Hn] & _). fold d in Hs, Hn. simpl in Hs, Hn.
  destruct (selection_sliced _ _ _ _ _ _ _ _ _ Hsel Hs Hn) as [Hdim Hlab].
  split.
  { unfold selection in Hsel. fold d in Hsel. apply bind_Ok in Hsel as (v1 & ? & ?).
    by exists v1, values. }
  destruct (table_rows _ _ _ _ _ Htab) as (df0 & H0 & Hnames & _ & _ & HF).
  split; [by rewrite Hnames|].
  intros r Hr. apply list_elem_of_lookup in Hr as [i Hi].
  destruct (Forall2_lookup_r _ _ _ _ _ HF Hi) as (r0 & Hi0 & cells & Hcells & Hr1 & _).
  apply list_elem_of_lookup_2 in Hi0.
  destruct (reset_cells_dim _ _ _ _ H0 Hi0 Hdim) as (x & labels & Hx & Hl & Hxl).
  assert (cells !! key_lon mode = Some x) as Hc.
  { destruct (truthy has_depth); [by subst|].
    destruct Hcells as (v & -> & _). rewrite lookup_insert_ne; [done|].
    intros Heq. by destruct (key_lon_not_depth mode) as [? _]. }
  apply list_elem_of_fmap in Hxl as (e & -> & He).
  specialize (Hlab _ Hl). rewrite Forall_forall in Hlab.
  apply Hlab, in_slice_num in He as (q & Hq & ? & ?).
  exists q. rewrite Hr1. simpl. by rewrite Hc, Hq.
Qed.










Lemma selection_name ds mode date long_lat depth has_depth values :
  selection ds mode date long_lat depth has_depth = Ok values →
  xr.name values = xr.name ds.
Proof.
  unfold selection. intros H. apply bind_Ok in H as (v1 & H1 & H2).
  apply sel_inv in H1 as (_ & _ & _ & _ & Hn1 & _).
  apply sel_inv in H2 as (_ & _ & _ & _ & Hn2 & _). by rewrite Hn2, Hn1.
Qed.

Lemma foldr_delete_lookup_ne (keys : list string) (m : gmap string scalar) k :
  k ∉ keys → foldr (λ k m, delete k m) m keys !! k = m !! k.
Proof.
  induction keys as [|k' keys IH]; simpl; [done|].
  intros [Hne Hk]%not_elem_of_cons. rewrite lookup_delete_ne by done. by apply IH.
Qed.

Lemma zip_lookup_None (names : list string) (l : list scalar) k :
  k ∉ names → (list_to_map (zip names l) : gmap string scalar) !! k = None.
Proof.
  intros Hk. apply not_elem_of_list_to_map_1. intros Hin.
  apply list_elem_of_fmap in Hin as ([k' x] & -> & Hin). apply Hk.
  by eapply elem_of_zip_l.
Qed.

(** The sampled value of a point is the cell of the variable in its row,
    all the way to the final table. *)
Lemma table_keeps_values mode depth has_depth values df df0 :
  xr.name values ∉ index_keys mode →
  table mode depth has_depth values = Ok df →
  xr.to_dataframe values = Ok df0 →
  xr.name values ∈ pd.columns df ∧
  Forall2 (λ r0 r, length r.1 = 4%nat ∧
             is_Some (r0.2 !! xr.name values) ∧
             r.2 !! xr.name values = r0.2 !! xr.name values)
    (pd.rows df0) (pd.rows df).
Proof.
  intros Hname Htab H0.
  destruct (table_rows _ _ _ _ _ Htab) as (df0' & H0' & _ & Hidx & Hcol & HF).
  assert (df0' = df0) as -> by congruence. clear H0'.
  pose proof (to_dataframe_inv _ _ H0) as (_ & Hc0 & Hr0).
  assert (xr.name values ∈ pd.columns df0) as Hin.
  { rewrite Hc0. apply elem_of_app. right. by left. }
  split; [by apply Hcol|].
  assert (Forall (λ r0, is_Some (r0.2 !! xr.name values)) (pd.rows df0)) as Hsome.
  { rewrite Hr0. apply Forall_forall. intros r0 (c & -> & _)%list_elem_of_fmap.
    unfold xr.row_of. simpl. rewrite lookup_insert_eq. by eexists. }
  apply Forall2_same_length_lookup. split; [by eapply Forall2_length|].
  intros i r0 r Hi0 Hi.
  destruct (Forall2_lookup_lr _ _ _ _ _ _ HF Hi0 Hi) as (cells & Hcells & Hr1 & Hr2).
  split_and!.
  - rewrite Hr1. done.
  - rewrite Forall_forall in Hsome. apply Hsome. by eapply list_elem_of_lookup_2.
  - rewrite Hr2, foldr_delete_lookup_ne by done.
    assert (xr.name values ≠ "depth") as Hnd.
    { intros Heq. apply Hname. rewrite Heq. unfold index_keys. set_solver. }
    assert (reset_cells (pd.index_names df0) r0 !! xr.name values
            = r0.2 !! xr.name values) as Hreset.
    { unfold reset_cells. rewrite lookup_union_r; [done|].
      apply zip_lookup_None. intros Hx. by apply (Hidx _ Hx). }
    destruct (truthy has_depth); [by subst|].
    destruct Hcells as (v & -> & _). by rewrite lookup_insert_ne.
Qed.

Lemma column_Forall2 k (rows0 rows : list (list scalar * gmap string scalar)) :
  Forall2 (λ r0 r, r.2 !! k = r0.2 !! k) rows0 rows →
  omap (λ r, r.2 !! k) rows = omap (λ r, r.2 !! k) rows0.
Proof.
  induction 1 as [|r0 r rows0 rows Hr _ IH]; [done|]. simpl in *.
  rewrite Hr. destruct (r0.2 !! k); [f_equal|]; exact IH.
Qed.

Lemma item_mean_inv df x :
  pd.item (pd.mean df) = Ok x →
  ∃ k, pd.columns df = [k] ∧ x = pd.mean_cells (pd.column k df).
Proof.
  unfold pd.mean, pd.item. destruct (pd.columns df) as [|k [|k' ks]]; simpl; try done.
  intros ?; simplify_eq. by exists k.
Qed.

(** ** Sample queries *)

Example thetao_query_rows :
  map fst (pd.rows (table_of thetao_query)) =
  [[Time sample_day; Num 0; Num 30; Num 5];
   [Time sample_day; Num 5; Num 30; Num 5];
   [Time sample_day; Num 10; Num 30; Num 5]].
Proof. vm_compute. reflexivity. Qed.

Example mlotst_query_rows :
  map fst (pd.rows (table_of mlotst_query)) =
  [[Time sample_day; Num 0; Num 30; Num 4];
   [Time sample_day; Num 5; Num 30; Num 4];
   [Time sample_day; Num 10; Num 30; Num 4]].
Proof. vm_compute. reflexivity. Qed.

Example thetao_query_mean :
  ∃ sc, f_slice (Some (VStr "mean")) sample_thetao (VStr "lon-lat") (Point sample_day)
          (Range 0%Q 10%Q, Point 30%Q) (Point 4%Q) (VBool true)
        = Ok (Scalar (Num (306 # 3)), sc).
Proof. eexists. vm_compute. reflexivity. Qed.

(** A query that gives a scalar along every axis leaves no dimension, and
    the conversion to a table refuses it. *)
Example point_query_is_refused :
  f_slice None sample_thetao (VStr "lon-lat") (Point sample_day)
    (Point 0%Q, Point 30%Q) (Point 4%Q) (VBool true)
  = Err (ValueError [Lit "cannot convert a scalar to a DataFrame"]).
Proof. vm_compute. reflexivity. Qed.

(** A range of depths on a grid without depth: the two bounds are taken
    as one value per row, and the three rows refuse them. *)
Example depthless_range_is_refused :
  f_slice None sample_mlotst (VStr "lon-lat") (Point sample_day)
    (Range 0%Q 10%Q, Point 30%Q) (Range 0%Q 10%Q) (VBool false)
  = Err (ValueError [Lit "Length of values does not match length of index"]).
Proof. vm_compute. reflexivity. Qed.

(** Longitudes 0 to 10 of the temperature grid. *)
Lemma f_slice_selects_by_axis_witness :
  Forall (λ r, ∃ x, r.1 !! 1%nat = Some (Num x) ∧ (0 <= x)%Q ∧ (x <= 10)%Q)
    (pd.rows (table_of thetao_query)).
Proof.
  apply Forall_forall.
  apply (f_slice_selects_by_axis None sample_thetao (VStr "lon-lat") (Point sample_day)
           0%Q 10%Q (Point 30%Q) (Point 4%Q) (VBool true)
           (table_of thetao_query) (coordinates_of thetao_query)).
  vm_compute. reflexivity.
Defined.


(** A first [fetch] that opens the dataset, then a second one while the
    connector would fail. *)
Lemma fetch_opens_once_witness :
  fetch (stub_world 3 ∅) "med" "med-cmcc-tem-rean-d" sample_cached
  = (Return ∅, called (CallFetch "med" "med-cmcc-tem-rean-d") sample_cached).
Proof.
  apply (proj2 (proj2 (proj2 (fetch_opens_once (stub_world 0 ∅) "med" "med-cmcc-tem-rean-d"
                         sample_run ∅ sample_cached ltac:(vm_compute; reflexivity))))
           (stub_world 3 ∅) [] "med").
Defined.

(** ** More on the connector *)

(** A try that succeeds ends the loop without a look at [num_retries]. *)
Lemma retry_loop_first_try w f s url st fuel k r :
  open_url w = Some f → session (self r) = Some s →
  try_open w f (opens r) url = Ok st →
  retry_loop w (S fuel) url k r = (Return st, called (CallOpenUrl url) r).
Proof.
  intros Hf Hs Hok. rewrite retry_loop_S. unfold try_except.
  by rewrite (attempt_eq w f s), Hok.
Qed.

(** With a bound of one or less, the first failure is the last. *)
Lemma retry_loop_one_try w f s n url fuel k r :
  open_url w = Some f → session (self r) = Some s →
  num_retries (self r) = Some n → n ≤ k + 1 →
  (∃ e, try_open w f (opens r) url = Err e) →
  retry_loop w (S fuel) url k r =
  (Raise (RuntimeError [Lit "Cannot successfully access the dataset"]),
   called (CallOpenUrl url) r).
Proof.
  intros Hf Hs Hn Hle [e He]. rewrite retry_loop_S. unfold try_except.
  rewrite (attempt_eq w f s), He by done. rewrite handler_eq. simpl. rewrite Hn.
  destruct (k + 1 >=? n) eqn:Hge; [done|lia].
Qed.

(** What one run of the loop adds to the record: calls of [open_url] on
    the url it was given, no more of them than the bound allows. *)
Lemma retry_loop_calls w url : ∀ fuel k r,
  ∃ m, calls (retry_loop w fuel url k r).2 = (calls r ++ replicate m (CallOpenUrl url))%list ∧
       (m ≤ fuel)%nat ∧
       match num_retries (self r) with
       | Some n => (m ≤ Z.to_nat (Z.max 1 (n - k)))%nat
       | None => (m ≤ 1)%nat
       end.
Proof.
  induction fuel as [|fuel IH]; intros k r.
  { exists 0%nat. simpl. rewrite app_nil_r. split_and!; [done|lia|].
    destruct (num_retries (self r)); lia. }
  rewrite retry_loop_S. unfold try_except.
  assert (∃ o m1, attempt w url r = (o, called_n m1 (CallOpenUrl url) r) ∧ (m1 ≤ 1)%nat)
    as (o & m1 & Ha & Hm1).
  { unfold attempt. run. destruct (open_url w) as [f|]; simpl.
    - destruct (session (self r)); simpl.
      + destruct (f _ url) as [st|e]; simpl.
        * destruct (PydapDataStore w st); eexists _, 1%nat; by split.
        * eexists _, 1%nat; by split.
      + eexists _, 0%nat. unfold called_n. simpl. rewrite app_nil_r.
        split; [by destruct r|lia].
    - eexists _, 0%nat. unfold called_n. simpl. rewrite app_nil_r.
      split; [by destruct r|lia]. }
  rewrite Ha. destruct o as [st|e|]; simpl.
  - exists m1. split_and!; [done|lia|]. destruct (num_retries (self r)); lia.
  - rewrite handler_eq. simpl.
    destruct (num_retries (self r)) as [n|] eqn:Hn; simpl.
    + destruct (k + 1 >=? n) eqn:Hge; simpl.
      * exists m1. split_and!; [done|lia|lia].
      * destruct (IH (k + 1) (called_n m1 (CallOpenUrl url) r)) as (m & Hc & Hm & Hb).
        simpl in Hb. rewrite Hn in Hb.
        exists (m1 + m)%nat. rewrite Hc. simpl.
        rewrite replicate_add, app_assoc. split_and!; [done|lia|lia].
    + exists m1. split_and!; [done|lia|lia].
  - exists m1. split_and!; [done|lia|]. destruct (num_retries (self r)); lia.
Qed.

(** X1. On an object whose [num_retries] and [session] a caller has set,
    for a dataset that is not cached: when the first [max_tries n - 1] tries
    fail and the next one gives a store that [xr.open_dataset] opens,
    [fetch] returns the dataset after exactly [max_tries n] calls of
    [open_url] and one of [open_dataset], and caches it. The last try
    allowed by the bound still counts. *)
Theorem fetch_returns_within_bound w f s n p d r st x :
  datastores (self r) !! d = None →
  open_url w = Some f → session (self r) = Some s → num_retries (self r) = Some n →
  (∀ i, (i < max_tries n - 1)%nat →
        ∃ e, try_open w f (opens r + i) (url_of p d) = Err e) →
  try_open w f (opens r + (max_tries n - 1)) (url_of p d) = Ok st →
  open_dataset w st = Ok x →
  fetch w p d r =
  (Return x,
   cached d x (called CallOpenDataset
     (called_n (max_tries n) (CallOpenUrl (url_of p d)) (called (CallFetch p d) r)))).
Proof.
  intros Hd Hf Hs Hn Hfail Hok Hx. unfold max_tries in *.
  destruct (decide (1 ≤ n)) as [Hn1|Hn0].
  - replace (Z.to_nat (Z.max 1 n)) with (Z.to_nat n) in * by lia.
    replace (Z.to_nat n - 1)%nat with (Z.to_nat (n - 1)) in * by lia.
    by eapply fetch_configured_returns.
  - replace (Z.to_nat (Z.max 1 n)) with 1%nat in * by lia. simpl in Hok.
    rewrite Nat.add_0_r in Hok.
    pose proof (fetch_cases w p d r) as Hc. simpl in Hc. rewrite Hd in Hc.
    unfold retry_fuel in Hc. rewrite Hn in Hc.
    rewrite (retry_loop_first_try w f s _ st) in Hc; [|done..|by rewrite opens_called_fetch].
    by rewrite Hx in Hc.
Qed.

Lemma fetch_returns_within_bound_witness :
  fetch (stub_world 9 ∅) "med" "med-cmcc-tem-rean-d" sample_run
  = (Return ∅,
     cached "med-cmcc-tem-rean-d" ∅ (called CallOpenDataset
       (called_n 10 (CallOpenUrl (url_of "med" "med-cmcc-tem-rean-d"))
          (called (CallFetch "med" "med-cmcc-tem-rean-d") sample_run)))).
Proof.
  apply (fetch_returns_within_bound (stub_world 9 ∅) (flaky 9 ∅) SessionObject 10
           "med" "med-cmcc-tem-rean-d" sample_run (PydapStore (DatasetType ∅)) ∅);
    try reflexivity.
  intros i Hi. exists (Failure "connection").
  change (max_tries 10 - 1)%nat with 9%nat in Hi.
  unfold try_open, stub_world, flaky. simpl.
  destruct (Nat.ltb_spec i 9); [reflexivity|lia].
Defined.

(** X2. In the same setting, when the first [max_tries n] tries fail,
    [fetch] raises "Cannot successfully access the dataset" after exactly
    [max_tries n] calls of [open_url]; nothing is opened and nothing is
    cached. A bound of zero or less still makes one try. *)
Theorem fetch_gives_up_at_bound w f s n p d r :
  datastores (self r) !! d = None →
  open_url w = Some f → session (self r) = Some s → num_retries (self r) = Some n →
  (∀ i, (i < max_tries n)%nat → ∃ e, try_open w f (opens r + i) (url_of p d) = Err e) →
  fetch w p d r =
  (Raise (RuntimeError [Lit "Cannot successfully access the dataset"]),
   called_n (max_tries n) (CallOpenUrl (url_of p d)) (called (CallFetch p d) r)).
Proof.
  intros Hd Hf Hs Hn Hfail. unfold max_tries in *.
  destruct (decide (1 ≤ n)) as [Hn1|Hn0].
  - replace (Z.to_nat (Z.max 1 n)) with (Z.to_nat n) in * by lia.
    by eapply fetch_configured_gives_up.
  - replace (Z.to_nat (Z.max 1 n)) with 1%nat in * by lia.
    pose proof (fetch_cases w p d r) as Hc. simpl in Hc. rewrite Hd in Hc.
    unfold retry_fuel in Hc. rewrite Hn in Hc.
    rewrite (retry_loop_one_try w f s n) in Hc; [done|done|done|done|lia|].
    rewrite opens_called_fetch. destruct (Hfail 0%nat) as [e He]; [lia|].
    rewrite Nat.add_0_r in He. by exists e.
Qed.

Lemma fetch_gives_up_at_bound_witness :
  fetch (stub_world 1 ∅) "med" "med-cmcc-tem-rean-d" (mkRun (configured 0) [])
  = (Raise (RuntimeError [Lit "Cannot successfully access the dataset"]),
     called_n 1 (CallOpenUrl (url_of "med" "med-cmcc-tem-rean-d"))
       (called (CallFetch "med" "med-cmcc-tem-rean-d") (mkRun (configured 0) []))).
Proof.
  apply (fetch_gives_up_at_bound (stub_world 1 ∅) (flaky 1 ∅) SessionObject 0
           "med" "med-cmcc-tem-rean-d" (mkRun (configured 0) [])); try reflexivity.
  intros i Hi. exists (Failure "connection").
  change (max_tries 0) with 1%nat in Hi.
  unfold try_open, stub_world, flaky. simpl.
  destruct (Nat.ltb_spec i 1); [reflexivity|lia].
Defined.

(** X3. When the first try succeeds, the handler is not run and
    [num_retries] is not read: [fetch] ends as [xr.open_dataset] ends, after
    one call of [open_url], whatever the bound and even on an object that
    has none. An error of [xr.open_dataset] is not caught and leaves the
    cache as it was. *)
Theorem fetch_first_try w f s p d r st :
  datastores (self r) !! d = None →
  open_url w = Some f → session (self r) = Some s →
  try_open w f (opens r) (url_of p d) = Ok st →
  fetch w p d r =
  match open_dataset w st with
  | Ok x =>
      (Return x,
       cached d x (called CallOpenDataset
         (called (CallOpenUrl (url_of p d)) (called (CallFetch p d) r))))
  | Err e =>
      (Raise e,
       called CallOpenDataset (called (CallOpenUrl (url_of p d)) (called (CallFetch p d) r)))
  end.
Proof.
  intros Hd Hf Hs Hok.
  pose proof (fetch_cases w p d r) as Hc. simpl in Hc. rewrite Hd in Hc.
  assert (∃ fuel, retry_fuel (self r) = S fuel) as [fuel Hfuel].
  { unfold retry_fuel. destruct (num_retries (self r)); by eexists. }
  rewrite Hfuel, (retry_loop_first_try w f s _ st) in Hc;
    [|done..|by rewrite opens_called_fetch].
  by destruct (open_dataset w st).
Qed.

Lemma fetch_first_try_witness :
  fetch (stub_world 0 ∅) "med" "med-cmcc-tem-rean-d" (mkRun unbounded [])
  = (Return ∅,
     cached "med-cmcc-tem-rean-d" ∅ (called CallOpenDataset
       (called (CallOpenUrl (url_of "med" "med-cmcc-tem-rean-d"))
          (called (CallFetch "med" "med-cmcc-tem-rean-d") (mkRun unbounded []))))).
Proof.
  apply (fetch_first_try (stub_world 0 ∅) (flaky 0 ∅) SessionObject
           "med" "med-cmcc-tem-rean-d" (mkRun unbounded []) (PydapStore (DatasetType ∅)));
    reflexivity.
Defined.

(** X4. What one call of [fetch] records, in every case: its own
    invocation, then some calls of [open_url], all with the URL built from
    its two arguments, then at most one call of [open_dataset]. A cached
    dataset makes no remote call; otherwise the calls of [open_url] are at
    most [max_tries n], and at most one when the object has no bound. *)
Theorem fetch_record w p d r :
  ∃ m tail,
    calls (fetch w p d r).2
    = (calls r ++ CallFetch p d :: replicate m (CallOpenUrl (url_of p d)) ++ tail)%list ∧
    (tail = [] ∨ tail = [CallOpenDataset]) ∧
    match datastores (self r) !! d, num_retries (self r) with
    | Some _, _ => m = 0%nat ∧ tail = []
    | None, Some n => (m ≤ max_tries n)%nat
    | None, None => (m ≤ 1)%nat
    end.
Proof.
  pose proof (fetch_cases w p d r) as Hc. simpl in Hc.
  destruct (datastores (self r) !! d) as [y|] eqn:Hd.
  { rewrite Hc. exists 0%nat, []. simpl. split; [done|]. split; [by left|done]. }
  destruct (retry_loop_calls w (url_of p d) (retry_fuel (self r)) 0
              (called (CallFetch p d) r)) as (m & Hm & _ & Hb).
  simpl in Hb.
  assert (match num_retries (self r) with
          | Some n => (m ≤ max_tries n)%nat
          | None => (m ≤ 1)%nat
          end) as Hb'.
  { destruct (num_retries (self r)) as [n|]; [|exact Hb].
    unfold max_tries. by rewrite Z.sub_0_r in Hb. }
  clear Hb.
  destruct (retry_loop _ _ _ _ _) as [[ds|e|] r1]; simpl in *.
  - exists m, [CallOpenDataset].
    split; [|split; [by right|done]].
    destruct (open_dataset w ds); rewrite Hc; simpl; rewrite Hm;
      by rewrite <- !app_assoc.
  - rewrite Hc. simpl. rewrite Hm. exists m, []. rewrite app_nil_r, <- app_assoc.
    split; [done|]. split; [by left|done].
  - rewrite Hc. simpl. rewrite Hm. exists m, []. rewrite app_nil_r, <- app_assoc.
    split; [done|]. split; [by left|done].
Qed.

(** ** More on [__init__] and [get_value] *)

Lemma fetch_all_fresh w requests : ∀ made,
  fetch_all w requests (mkRun fresh made)
  = mkRun fresh (made ++ map (λ q, CallFetch q.1 q.2) requests).
Proof.
  induction requests as [|q requests IH]; intros made; simpl.
  { by rewrite app_nil_r. }
  rewrite (fetch_unconfigured w q.1 q.2 (mkRun fresh made)) by done.
  unfold called. simpl. rewrite IH. by rewrite <- app_assoc.
Qed.

(** X5. The constructor raises the login error exactly when the login is
    refused. The object it builds after a successful login has an empty
    cache, and without further assignments it never gets another one:
    whatever datasets are fetched, on whatever state of the world, the
    object stays as built and no remote call is made (the call of
    [open_url] fails before it is made, and the handler raises at
    [self.num_retries]). *)
Theorem init_then_fetch w n :
  match __init__ w n with
  | Ok me =>
      login w = true ∧ datastores me = ∅ ∧
      ∀ w' requests,
        fetch_all w' requests (mkRun me [])
        = mkRun me (map (λ q, CallFetch q.1 q.2) requests)
  | Err e =>
      login w = false ∧ e = RuntimeError [Lit "Login to cmems unsucessfull, aborting..."]
  end.
Proof.
  unfold __init__. destruct (login w); [|done].
  split_and!; [done..|]. intros w' requests. apply (fetch_all_fresh w' requests []).
Qed.

(** X6. [get_value] never returns: for every world, query and state it
    raises, and the state is left as it was. The exception is the
    unknown-feature error for a name outside the registry, the validity
    error for a date before the validity start, and [KeyError] for
    [params["prefix"]] otherwise. *)
Theorem get_value_never_returns w date long_lat depth what reduction r :
  ∃ e, get_value w date long_lat depth what reduction r = (Raise e, r) ∧
       match _feature_params !! what with
       | None => e = unknown_feature what
       | Some params =>
           ∃ limit, params !! "date_limit" = Some (VDate limit) ∧
             e = if datetime.ltb (first_date date) limit
                 then undefined_before what limit else KeyError "prefix"
       end.
Proof.
  destruct (_feature_params !! what) as [params|] eqn:H.
  - destruct (get_value_registered w date long_lat depth what reduction r _ H)
      as (limit & Hl & Hg).
    exists (if datetime.ltb (first_date date) limit
            then undefined_before what limit else KeyError "prefix").
    split; [rewrite Hg; by destruct (datetime.ltb _ _)|]. by exists limit.
  - exists (unknown_feature what). split; [|done]. by apply get_value_with_unknown.
Qed.

Lemma lex_lt_irrefl l : datetime.lex_lt l l = false.
Proof.
  induction l as [|x l IH]; [done|]. simpl.
  rewrite Z.ltb_irrefl, Z.eqb_refl, IH. done.
Qed.

(** X7. The validity test is strict, and for a range it looks at the first
    date only: a query dated exactly at the validity start of the feature
    passes it (and stops at [params["prefix"]]), also when the range ends
    before the validity start. *)
Theorem get_value_at_validity_start w date long_lat depth what reduction r params limit :
  _feature_params !! what = Some params →
  params !! "date_limit" = Some (VDate limit) →
  first_date date = limit →
  get_value w date long_lat depth what reduction r = (Raise (KeyError "prefix"), r).
Proof.
  intros H Hl Hd.
  destruct (get_value_registered w date long_lat depth what reduction r _ H)
    as (limit' & Hl' & ->).
  assert (limit' = limit) as -> by congruence.
  rewrite Hd. unfold datetime.ltb. by rewrite lex_lt_irrefl.
Qed.

Lemma get_value_at_validity_start_witness :
  get_value (stub_world 0 ∅)
    (Range (datetime.of_dmy 1 1 1999) (datetime.of_dmy 1 1 1990))
    (Point 0%Q, Point 0%Q) (Point 0%Q) "oxygen" None (mkRun fresh [])
  = (Raise (KeyError "prefix"), mkRun fresh []).
Proof.
  apply (get_value_at_validity_start _ _ _ _ _ _ _
           (descriptor "med-ogs-bio-rean-d" "o2" "longitude-latitude" true
              (datetime.of_dmy 1 1 1999)) (datetime.of_dmy 1 1 1999)); reflexivity.
Defined.

(** [get_value], as far as the state goes, is one [fetch] or nothing. *)
Lemma get_value_with_state registry w date long_lat depth what reduction r :
  (get_value_with registry w date long_lat depth what reduction r).2 = r ∨
  ∃ params p d,
    registry !! what = Some params ∧
    params !! "prefix" = Some (VStr p) ∧ params !! "dataset" = Some (VStr d) ∧
    (get_value_with registry w date long_lat depth what reduction r).2
    = (fetch w p d r).2.
Proof.
  unfold get_value_with. destruct (registry !! what) as [params|] eqn:H; [|left; reflexivity].
  run. unfold getitem.
  destruct (params !! "date_limit") as [limit|]; simpl; [|left; reflexivity].
  destruct (date_lt _ limit) as [[|]|]; simpl; [left; reflexivity| |left; reflexivity].
  destruct (params !! "prefix") as [vp|] eqn:Hp; simpl; [|left; reflexivity].
  destruct (params !! "dataset") as [vd|] eqn:Hd; simpl; [|left; reflexivity].
  destruct vp as [p| |]; simpl; [|left; reflexivity..].
  destruct vd as [d| |]; simpl; [|left; reflexivity..].
  right. exists params, p, d. split_and!; [done..|].
  destruct (fetch w p d r) as [[ds|e|] r1]; simpl; [|done..].
  destruct (params !! "field") as [vf|]; simpl; [|done].
  destruct vf as [f| |]; simpl; [|done..].
  destruct (_ !! f); simpl; [|done].
  destruct (params !! "slice_mode"); simpl; [|done].
  destruct (params !! "has_depth"); simpl; [|done].
  by destruct (f_slice _ _ _ _ _ _ _).
Qed.

(** X8. Over any registry, a call of [get_value] changes the object by at
    most one [fetch]: the state it leaves is the state it found or the state
    after the fetch of the feature's prefix and dataset; entries of the
    cache are only added, and [num_retries] and [session] are not
    assigned. *)
Theorem get_value_with_one_fetch registry w date long_lat depth what reduction r :
  let r1 := (get_value_with registry w date long_lat depth what reduction r).2 in
  datastores (self r) ⊆ datastores (self r1) ∧
  num_retries (self r1) = num_retries (self r) ∧ session (self r1) = session (self r) ∧
  (r1 = r ∨
   ∃ params p d,
     registry !! what = Some params ∧
     params !! "prefix" = Some (VStr p) ∧ params !! "dataset" = Some (VStr d) ∧
     r1 = (fetch w p d r).2).
Proof.
  intros r1.
  destruct (get_value_with_state registry w date long_lat depth what reduction r)
    as [Hr|(params & p & d & H & Hp & Hd & Hr)]; fold r1 in Hr; rewrite Hr.
  - split_and!; [done..|by left].
  - split_and!.
    + apply fetch_cache_grows.
    + by destruct (fetch_self_or_cached w p d r) as [->|(x & _ & _ & ->)].
    + by destruct (fetch_self_or_cached w p d r) as [->|(x & _ & _ & ->)].
    + right. by exists params, p, d.
Qed.

(** X9. Over any registry, a result that [get_value] returns is the
    result of [f_slice] on the variable [params["field"]] of the dataset
    that [fetch] returned for [params["prefix"]] and [params["dataset"]],
    with the slice mode and the depth flag of the feature; that dataset is
    in the cache afterwards. [patched_query_returns] runs it on a registry
    that has the three keys. *)
Theorem get_value_with_returns registry w date long_lat depth what reduction r v r1 :
  get_value_with registry w date long_lat depth what reduction r = (Return v, r1) →
  answered_from registry w date long_lat depth what reduction r v r1.
Proof.
  unfold get_value_with, answered_from.
  destruct (registry !! what) as [params|] eqn:H; [|done].
  run. unfold getitem.
  destruct (params !! "date_limit") as [limit|]; simpl; [|done].
  destruct (date_lt _ limit) as [[|]|]; simpl; [done| |done].
  destruct (params !! "prefix") as [vp|] eqn:Hp; simpl; [|done].
  destruct (params !! "dataset") as [vd|] eqn:Hd; simpl; [|done].
  destruct vp as [p| |]; simpl; [|done..].
  destruct vd as [d| |]; simpl; [|done..].
  destruct (fetch w p d r) as [[ds|e|] r'] eqn:Hf; simpl; [|done..].
  destruct (params !! "field") as [vf|] eqn:Hfield; simpl; [|done].
  destruct vf as [f| |]; simpl; [|done..].
  destruct (_ !! f) as [da|] eqn:Hda; simpl; [|done].
  destruct (params !! "slice_mode") as [mode|] eqn:Hm; simpl; [|done].
  destruct (params !! "has_depth") as [hd|] eqn:Hh; simpl; [|done].
  destruct (f_slice _ _ _ _ _ _ _) as [v'|] eqn:Hs; simpl; [|done].
  intros ?; simplify_eq.
  exists params, p, d, f, ds, da, mode, hd. split_and!; try done.
  by eapply fetch_returns_cached.
Qed.

Example patched_query_returns :
  match patched_query.1 with
  | Return (Table df, _) => map fst (pd.rows df)
  | _ => []
  end =
  [[Time sample_day; Num 0; Num 30; Num 5];
   [Time sample_day; Num 5; Num 30; Num 5];
   [Time sample_day; Num 10; Num 30; Num 5]].
Proof. vm_compute. reflexivity. Qed.

Lemma get_value_with_returns_witness :
  answered_from patched_registry sample_world (Point sample_day)
    (Range 0%Q 10%Q, Point 30%Q) (Point 4%Q) "temperature" None sample_run
    (Table (table_of thetao_query), coordinates_of thetao_query) patched_query.2.
Proof.
  apply get_value_with_returns. reflexivity.
Defined.

(** ** More on the slicer *)

(** The level of a row of the table under an index key is the cell of
    that key once the index was reset (and depth assigned). *)
Lemma table_level mode depth has_depth values df df0 i key :
  table mode depth has_depth values = Ok df →
  xr.to_dataframe values = Ok df0 →
  index_keys mode !! i = Some key →
  (key = "depth" → truthy has_depth = true) →
  Forall2 (λ r0 r, r.1 !! i
                   = Some (default NaN (reset_cells (pd.index_names df0) r0 !! key)))
    (pd.rows df0) (pd.rows df).
Proof.
  intros Htab H0 Hi Hkey.
  destruct (table_rows _ _ _ _ _ Htab) as (df0' & H0' & _ & _ & _ & HF).
  assert (df0' = df0) as -> by congruence.
  eapply Forall2_impl; [exact HF|].
  intros r0 r (cells & Hcells & Hr1 & _).
  rewrite Hr1, list_lookup_fmap, Hi. simpl. do 2 f_equal.
  destruct (truthy has_depth) eqn:Hd; [by subst|].
  destruct Hcells as (v & -> & _). rewrite lookup_insert_ne; [done|].
  intros <-. by specialize (Hkey eq_refl).
Qed.

(** An axis given as a range: the level of every row is a label of the
    slice. *)
Lemma table_sliced_level ds mode date long_lat depth has_depth values df key sl i :
  let d := coords_definitions mode date long_lat depth has_depth in
  selection ds mode date long_lat depth has_depth = Ok values →
  table mode depth has_depth values = Ok df →
  slice_coords_definition d !! key = Some (xr.KSlice sl) →
  noslice_coords_definition d !! key = None →
  index_keys mode !! i = Some key →
  (key = "depth" → truthy has_depth = true) →
  ∀ r, r ∈ pd.rows df → ∃ x, r.1 !! i = Some x ∧ xr.in_slice sl x.
Proof.
  intros d Hsel Htab Hs Hn Hi Hkey r Hr.
  destruct (selection_sliced _ _ _ _ _ _ _ _ _ Hsel Hs Hn) as [Hdim Hlab].
  destruct (table_rows _ _ _ _ _ Htab) as (df0 & H0 & _).
  pose proof (table_level _ _ _ _ _ _ _ _ Htab H0 Hi Hkey) as HF.
  apply list_elem_of_lookup in Hr as [j Hj].
  destruct (Forall2_lookup_r _ _ _ _ _ HF Hj) as (r0 & Hj0 & Hlevel).
  apply list_elem_of_lookup_2 in Hj0.
  destruct (reset_cells_dim _ _ _ _ H0 Hj0 Hdim) as (x & labels & Hx & Hl & Hxl).
  exists x. rewrite Hlevel, Hx. split; [done|].
  apply list_elem_of_fmap in Hxl as (e & -> & He).
  specialize (Hlab _ Hl). rewrite Forall_forall in Hlab. by apply Hlab.
Qed.

Lemma in_slice_time d0 d1 x :
  xr.in_slice (xr.Slice (Time d0) (Time d1)) x →
  ∃ t, x = Time t ∧ datetime.leb d0 t = true ∧ datetime.leb t d1 = true.
Proof.
  unfold xr.in_slice. simpl. intros [H1 H2]%andb_prop_elim.
  destruct x as [q| |t]; simpl in *; try done.
  exists t. split; [done|]. split; by apply Is_true_true.
Qed.

(** X10. The rows of a table that [f_slice] returns lie within the
    ranges of the query: the latitude level within a range of latitudes,
    the time level within a range of dates, and, for a feature with a depth
    axis, the depth level within a range of depths, bounds included.
    (Longitude is C6.) *)
Theorem f_slice_rows_within_ranges reduction ds mode date long_lat depth has_depth df sc :
  f_slice reduction ds mode date long_lat depth has_depth = Ok (Table df, sc) →
  match long_lat.2 with
  | Range lo hi =>
      ∀ r, r ∈ pd.rows df → ∃ x, r.1 !! 2%nat = Some (Num x) ∧ (lo <= x)%Q ∧ (x <= hi)%Q
  | Point _ => True
  end ∧
  match date with
  | Range d0 d1 =>
      ∀ r, r ∈ pd.rows df →
           ∃ t, r.1 !! 0%nat = Some (Time t)
                ∧ datetime.leb d0 t = true ∧ datetime.leb t d1 = true
  | Point _ => True
  end ∧
  match depth with
  | Range lo hi =>
      truthy has_depth = true →
      ∀ r, r ∈ pd.rows df → ∃ x, r.1 !! 3%nat = Some (Num x) ∧ (lo <= x)%Q ∧ (x <= hi)%Q
  | Point _ => True
  end.
Proof.
  intros H. apply f_slice_inv in H as (values & df' & Hsel & Htab & Hred & _).
  apply reduce_table in Hred as ->.
  pose proof (coords_definitions_selects mode date long_lat depth has_depth)
    as (_ & Hlat & Htime & Hdepth & _).
  split_and!.
  - destruct long_lat as [lon [y|lo hi]]; simpl in *; [done|]. destruct Hlat as [Hs Hn].
    intros r Hr.
    destruct (table_sliced_level _ _ _ _ _ _ _ _ _ _ 2%nat Hsel Htab Hs Hn) with (r := r)
      as (x & Hx & Hin); [done| |done|].
    { intros Heq. by destruct (key_lon_not_depth mode) as (_ & ? & _). }
    apply in_slice_num in Hin as (q & -> & ? & ?). by exists q.
  - destruct date as [t|d0 d1]; simpl in *; [done|]. destruct Htime as [Hs Hn].
    intros r Hr.
    destruct (table_sliced_level _ _ _ _ _ _ _ _ _ _ 0%nat Hsel Htab Hs Hn) with (r := r)
      as (x & Hx & Hin); [done|done|done|].
    apply in_slice_time in Hin as (t & -> & ? & ?). by exists t.
  - destruct depth as [z|lo hi]; simpl in *; [done|]. intros Hd. rewrite Hd in Hdepth.
    destruct Hdepth as [Hs Hn]. intros r Hr.
    destruct (table_sliced_level _ _ _ _ _ _ _ _ _ _ 3%nat Hsel Htab Hs Hn) with (r := r)
      as (x & Hx & Hin); [done|done|done|].
    apply in_slice_num in Hin as (q & -> & ? & ?). by exists q.
Qed.

Lemma f_slice_rows_within_ranges_witness :
  Forall (λ r, ∃ x, r.1 !! 2%nat = Some (Num x) ∧ (30 <= x)%Q ∧ (x <= 31)%Q)
    (pd.rows (table_of box_query)).
Proof.
  apply Forall_forall.
  apply (f_slice_rows_within_ranges None sample_thetao (VStr "lon-lat")
           (Range (datetime.of_dmy 30 7 2020) (datetime.of_dmy 31 7 2020))
           (Range 0%Q 10%Q, Range 30%Q 31%Q) (Range 1%Q 5%Q) (VBool true)
           (table_of box_query) (coordinates_of box_query)).
  reflexivity.
Defined.




(** The dimensions left by a selection are dimensions of the array. *)
Lemma sel_dims_names method ix ds r k :
  xr.sel_dims method ix ds = Ok r → k ∈ r.1.*1 → k ∈ ds.*1.
Proof.
  intros Hr Hk. apply sel_dims_kept in Hr. rewrite Forall_forall in Hr.
  apply list_elem_of_fmap in Hk as (d' & -> & Hd').
  destruct (Hr _ Hd') as (l0 & Hin & _).
  apply list_elem_of_fmap. by exists (d'.1, l0).
Qed.

Lemma drop_duplicates_names da : (xr.dims (xr.drop_duplicates da)).*1 = (xr.dims da).*1.
Proof.
  unfold xr.drop_duplicates. simpl. rewrite <- list_fmap_compose. by apply list_fmap_ext.
Qed.

(** Every key of the two dictionaries names a dimension of the array that
    a returned selection was made on. *)
Lemma selection_keys ds mode date long_lat depth has_depth values key :
  let d := coords_definitions mode date long_lat depth has_depth in
  selection ds mode date long_lat depth has_depth = Ok values →
  key ≠ "method" →
  is_Some (slice_coords_definition d !! key) ∨ is_Some (noslice_coords_definition d !! key) →
  key ∈ (xr.dims ds).*1.
Proof.
  intros d H Hm Hkey. unfold selection in H. fold d in H.
  apply bind_Ok in H as (v1 & H1 & H2).
  apply sel_inv in H1 as (r1 & Hr1 & Hk1 & Hd1 & _).
  apply sel_inv in H2 as (r2 & Hr2 & Hk2 & Hd2 & _).
  rewrite <- drop_duplicates_names.
  destruct Hkey as [Hs|Hn]; [by apply Hk1|].
  eapply sel_dims_names; [exact Hr1|]. rewrite <- Hd1. by apply Hk2.
Qed.

(** X12. [f_slice] returns only on an array that has the dimensions it
    asks for: [time], the longitude and latitude under the names of the
    feature's slice mode, and [depth] when the feature has a depth axis. An
    array of the other naming is refused by the selection
    ([naming_mismatch_is_refused]). *)
Theorem f_slice_needs_dimensions reduction ds mode date long_lat depth has_depth res sc :
  f_slice reduction ds mode date long_lat depth has_depth = Ok (res, sc) →
  "time" ∈ (xr.dims ds).*1 ∧
  key_lon mode ∈ (xr.dims ds).*1 ∧
  key_lat mode ∈ (xr.dims ds).*1 ∧
  (truthy has_depth = true → "depth" ∈ (xr.dims ds).*1).
Proof.
  intros H. apply f_slice_inv in H as (values & df & Hsel & _).
  pose proof (coords_definitions_selects mode date long_lat depth has_depth)
    as (Hlon & Hlat & Htime & Hdepth & _).
  assert (∀ key a,
            selects (coords_definitions mode date long_lat depth has_depth) key a →
            key ≠ "method" → key ∈ (xr.dims ds).*1) as Hin.
  { intros key a Ha Hm. eapply selection_keys; [exact Hsel|done|].
    destruct a as [x|lo hi]; destruct Ha as [Ha _]; [right|left]; by rewrite Ha. }
  destruct (key_lon_cases mode) as [(_ & Hk1 & Hk2)|(_ & Hk1 & Hk2)];
    (split_and!;
     [by eapply Hin
     |eapply Hin; [exact Hlon|by rewrite Hk1]
     |eapply Hin; [exact Hlat|by rewrite Hk2]
     |intros Hd; rewrite Hd in Hdepth; by eapply Hin]).
Qed.

Lemma f_slice_needs_dimensions_witness :
  "lon" ∈ (xr.dims sample_thetao).*1.
Proof.
  apply (f_slice_needs_dimensions None sample_thetao (VStr "lon-lat") (Point sample_day)
           (Range 0%Q 10%Q, Point 30%Q) (Point 4%Q) (VBool true)
           (Table (table_of thetao_query)) (coordinates_of thetao_query)).
  reflexivity.
Defined.

(** A query with the naming of the biogeochemistry products on the grid
    of a physics product. *)
Example naming_mismatch_is_refused :
  ∃ e, f_slice None sample_thetao (VStr "longitude-latitude") (Point sample_day)
         (Range 0%Q 10%Q, Point 30%Q) (Point 4%Q) (VBool true) = Err (KeyError e).
Proof. eexists. vm_compute. reflexivity. Qed.

Lemma sel_dims_unpicked method ix ds r :
  xr.sel_dims method ix ds = Ok r →
  Forall (λ d', ∀ x, ix !! d'.1 ≠ Some (xr.KScalar x)) r.1.
Proof.
  intros H%sel_dims_kept. eapply Forall_impl; [exact H|].
  intros d' (l0 & _ & [[Hn _]|(sl & Hs & _)]) x; congruence.
Qed.

(** A dimension of a returned selection is a dimension of the array, and
    it was given no scalar. *)
Lemma selection_dims ds mode date long_lat depth has_depth values d' :
  let d := coords_definitions mode date long_lat depth has_depth in
  selection ds mode date long_lat depth has_depth = Ok values →
  d' ∈ xr.dims values →
  d'.1 ∈ (xr.dims ds).*1 ∧
  ∀ x, noslice_coords_definition d !! d'.1 ≠ Some (xr.KScalar x).
Proof.
  intros d H Hin. unfold selection in H. fold d in H.
  apply bind_Ok in H as (v1 & H1 & H2).
  apply sel_inv in H1 as (r1 & Hr1 & _ & Hd1 & _).
  apply sel_inv in H2 as (r2 & Hr2 & _ & Hd2 & _).
  rewrite Hd2 in Hin. split.
  - rewrite <- drop_duplicates_names. eapply sel_dims_names; [exact Hr1|].
    rewrite <- Hd1. eapply sel_dims_names; [exact Hr2|].
    apply list_elem_of_fmap. by exists d'.
  - intros x Hx. apply sel_dims_unpicked in Hr2. rewrite Forall_forall in Hr2.
    apply (Hr2 _ Hin x).
    rewrite lookup_delete_ne; [done|].
    intros Heq. rewrite <- Heq in Hx.
    pose proof (coords_definitions_selects mode date long_lat depth has_depth)
      as (_ & _ & _ & _ & _ & Hm). fold d in Hm. congruence.
Qed.

(** X13. On an array that has no dimension besides the queried ones,
    [f_slice] returns only if at least one axis of the query is a range: a
    query with a scalar on every axis leaves an array without dimensions,
    which [to_dataframe] refuses. The query of
    [examples/example-cmems-001.py] has that shape
    ([point_query_is_refused]). *)
Theorem f_slice_needs_a_range reduction ds mode date long_lat depth has_depth res sc :
  f_slice reduction ds mode date long_lat depth has_depth = Ok (res, sc) →
  (∀ k, k ∈ (xr.dims ds).*1 → k ∈ queried_keys mode has_depth) →
  is_range date ∨ is_range long_lat.1 ∨ is_range long_lat.2 ∨
  (truthy has_depth = true ∧ is_range depth).
Proof.
  intros H Hdims.
  apply f_slice_inv in H as (values & df & Hsel & Htab & _).
  destruct (table_rows _ _ _ _ _ Htab) as (df0 & H0 & _).
  unfold xr.to_dataframe in H0.
  destruct (xr.dims values) as [|d' rest] eqn:Hd; [done|]. clear H0.
  destruct (selection_dims _ _ _ _ _ _ _ d' Hsel) as [Hin Hno].
  { rewrite Hd. by left. }
  apply Hdims in Hin.
  pose proof (coords_definitions_selects mode date long_lat depth has_depth)
    as (Hlon & Hlat & Htime & Hdepth & _).
  unfold queried_keys in Hin.
  apply elem_of_cons in Hin as [Hk|Hin].
  { rewrite Hk in Hno. destruct date as [t|t0 t1]; [|by left].
    destruct Htime as [Ht _]. by destruct (Hno _ Ht). }
  apply elem_of_cons in Hin as [Hk|Hin].
  { rewrite Hk in Hno. destruct (long_lat.1) as [x|x0 x1]; [|right; by left].
    destruct Hlon as [Hx _]. by destruct (Hno _ Hx). }
  apply elem_of_cons in Hin as [Hk|Hin].
  { rewrite Hk in Hno. destruct (long_lat.2) as [x|x0 x1]; [|right; right; by left].
    destruct Hlat as [Hx _]. by destruct (Hno _ Hx). }
  destruct (truthy has_depth); [|by apply elem_of_nil in Hin].
  apply list_elem_of_singleton in Hin. rewrite Hin in Hno.
  destruct depth as [x|x0 x1]; [|by repeat right].
  destruct Hdepth as [Hx _]. by destruct (Hno _ Hx).
Qed.

Lemma f_slice_needs_a_range_witness :
  is_range (Point sample_day) ∨ is_range (Range 0%Q 10%Q) ∨ is_range (Point 30%Q) ∨
  (truthy (VBool true) = true ∧ is_range (Point 4%Q)).
Proof.
  apply (f_slice_needs_a_range None sample_thetao (VStr "lon-lat") (Point sample_day)
           (Range 0%Q 10%Q, Point 30%Q) (Point 4%Q) (VBool true)
           (Table (table_of thetao_query)) (coordinates_of thetao_query)).
  - reflexivity.
  - intros k Hk. vm_compute in Hk. vm_compute.
    repeat (apply elem_of_cons in Hk as [->|Hk]; [set_solver|]).
    by apply elem_of_nil in Hk.
Defined.

(** *** The nearest label *)

Lemma nearest_spec x labels best e d :
  xr.nearest x labels best = Ok (Some (e, d)) →
  match best with
  | Some (e0, d0) =>
      (d <= d0)%Q ∧ ((e, d) = (e0, d0) ∨ (e ∈ labels ∧ distance x e.2 = Some d))
  | None => e ∈ labels ∧ distance x e.2 = Some d
  end ∧
  Forall (λ e', ∃ d', distance x e'.2 = Some d' ∧ (d <= d')%Q) labels.
Proof.
  revert best. induction labels as [|e1 rest IH]; intros best; simpl.
  { intros ?; simplify_eq. split; [|constructor]. split; [apply Qle_refl|by left]. }
  destruct (distance x e1.2) as [d1|] eqn:Hd1; [|done].
  intros H. apply IH in H as [Hb HF].
  destruct best as [[e0 d0]|].
  - destruct (negb (Qle_bool d0 d1) || (Qeq_bool d1 d0 && scalar_leb e0.2 e1.2)) eqn:Hc.
    + destruct Hb as [Hle Hb].
      assert (d1 <= d0)%Q as H10.
      { apply orb_true_iff in Hc as [Hc|Hc].
        - apply negb_true_iff in Hc. apply Qlt_le_weak, Qnot_le_lt.
          intros Hle'. apply Qle_bool_iff in Hle'. congruence.
        - apply andb_true_iff in Hc as [Hc _]. apply Qeq_bool_iff in Hc.
          rewrite Hc. apply Qle_refl. }
      split.
      * split; [by eapply Qle_trans|]. right.
        destruct Hb as [?|[? ?]]; simplify_eq; [split; [by left|done]|].
        split; [by right|done].
      * constructor; [|done]. by exists d1.
    + destruct Hb as [Hle Hb].
      assert (d0 <= d1)%Q as H01.
      { apply orb_false_iff in Hc as [Hc _]. apply negb_false_iff in Hc.
        by apply Qle_bool_iff. }
      split.
      * split; [done|]. destruct Hb as [?|[? ?]]; [by left|right].
        split; [by right|done].
      * constructor; [|done]. exists d1. split; [done|]. by eapply Qle_trans.
  - destruct Hb as [Hle Hb]. split.
    + destruct Hb as [?|[? ?]]; simplify_eq; [split; [by left|done]|].
      split; [by right|done].
    + constructor; [|done]. by exists d1.
Qed.

Lemma sel_one_picked method k labels ix e :
  xr.sel_one method k labels ix = Ok (xr.Picked e) →
  ∃ x d, ix = xr.KScalar x ∧ xr.nearest x labels None = Ok (Some (e, d)).
Proof.
  unfold xr.sel_one. destruct ix as [m|x|sl], method as [[m'|x'|sl']|]; simpl; try done.
  - destruct (String.eqb m' "nearest"); [|done].
    intros H. apply bind_Ok in H as ([[e' q]|] & Hn & H); [|done].
    simplify_eq. by exists x, q.
  - intros H. apply bind_Ok in H as (kept' & _ & ?). done.
Qed.

(** The scalar coordinates that a selection adds: each one is the label
    picked along a dimension of that name. *)
Lemma sel_dims_picked method ix ds r :
  xr.sel_dims method ix ds = Ok r →
  Forall (λ c, ∃ labels i, (c.1, labels) ∈ ds ∧ ix !! c.1 = Some i ∧
               xr.sel_one method c.1 labels i = Ok (xr.Picked c.2)) r.2.
Proof.
  revert r. induction ds as [|[k labels] ds IH]; intros r; simpl.
  { intros ?; simplify_eq. constructor. }
  assert (∀ r', Forall (λ c, ∃ labels i, (c.1, labels) ∈ ds ∧ ix !! c.1 = Some i ∧
               xr.sel_one method c.1 labels i = Ok (xr.Picked c.2)) r' →
          Forall (λ c, ∃ labels0 i, (c.1, labels0) ∈ (k, labels) :: ds ∧ ix !! c.1 = Some i ∧
               xr.sel_one method c.1 labels0 i = Ok (xr.Picked c.2)) r') as Hw.
  { intros r' Hr'. eapply Forall_impl; [exact Hr'|].
    intros c (l0 & i & ? & ? & ?). exists l0, i.
    split_and!; [by right|done..]. }
  destruct (ix !! k) as [i|] eqn:Hk.
  - intros H. apply bind_Ok in H as (s & Hs & H). apply bind_Ok in H as (r' & Hr & H).
    specialize (IH _ Hr). destruct s as [kept|e]; simplify_eq; simpl; [by apply Hw|].
    constructor; [|by apply Hw]. exists labels, i. split_and!; [by left|done..].
  - intros H. apply bind_Ok in H as (r' & Hr & H). simplify_eq. simpl.
    by apply Hw, IH.
Qed.

Lemma sel_dims_slices ix ds r : xr.sel_dims None ix ds = Ok r → r.2 = [].
Proof.
  intros H%sel_dims_picked. destruct (r.2) as [|c rest]; [done|].
  apply Forall_cons in H as [(labels & i & _ & _ & H) _].
  unfold xr.sel_one in H. destruct i; simpl in H; try done.
  by apply bind_Ok in H as (? & _ & ?).
Qed.

Lemma dedup_elem seen labels e : e ∈ xr.dedup seen labels → e ∈ labels.
Proof.
  revert seen. induction labels as [|e1 rest IH]; intros seen; simpl; [done|].
  destruct (existsb _ seen).
  - intros H. right. by eapply IH.
  - intros [->|H]%elem_of_cons; [by left|]. right. by eapply IH.
Qed.

(** What holds of every label kept holds of every label, when it does
    not tell equal labels apart. *)
Lemma dedup_Forall (P : scalar → Prop) seen labels :
  (∀ a b, scalar_eqb a b = true → P b → P a) →
  Forall P seen →
  Forall (λ e, P e.2) (xr.dedup seen labels) → Forall (λ e, P e.2) labels.
Proof.
  intros HP. revert seen. induction labels as [|e1 rest IH]; intros seen Hseen; simpl.
  { constructor. }
  destruct (existsb (scalar_eqb e1.2) seen) eqn:Hex.
  - intros H. constructor; [|by eapply IH].
    apply existsb_exists in Hex as (s & Hs & Heq).
    apply (HP _ s Heq). rewrite Forall_forall in Hseen. apply Hseen.
    by apply list_elem_of_In.
  - intros [H1 H2]%Forall_cons. constructor; [done|].
    eapply IH; [|exact H2]. by constructor.
Qed.

Lemma distance_eqb x a b d d' :
  scalar_eqb a b = true → distance x b = Some d' → (d <= d')%Q →
  ∃ d'', distance x a = Some d'' ∧ (d <= d'')%Q.
Proof.
  unfold scalar_eqb, distance.
  destruct a as [qa| |ta], b as [qb| |tb], x as [qx| |tx]; try (intros; discriminate).
  - intros Heq%Qeq_bool_iff Hd' Hle.
    assert (d' = Qabs (qx - qb)) as -> by congruence.
    eexists. split; [reflexivity|].
    eapply Qle_trans; [exact Hle|]. apply Qle_lteq. right.
    apply Qabs_wd. apply Qplus_comp; [reflexivity|]. apply Qopp_comp. by symmetry.
  - intros Heq%bool_decide_eq_true [= <-] Hle. subst. by eexists.
Qed.

Lemma nearest_label_all x labels e d :
  xr.nearest x (xr.dedup [] labels) None = Ok (Some (e, d)) →
  nearest_label x labels.*2 e.2.
Proof.
  intros (Hb & HF)%nearest_spec. destruct Hb as [Hin Hd].
  exists d. split_and!; [|done|].
  - apply list_elem_of_fmap. exists e. split; [done|]. by eapply dedup_elem.
  - apply Forall_fmap.
    apply (dedup_Forall (λ l, ∃ d', distance x l = Some d' ∧ (d <= d')%Q) []); [|constructor|done].
    intros a b Heq (d' & Hd' & Hle). by eapply distance_eqb.
Qed.

(** *** The selected coordinates *)

Lemma define_noslice key' a d key x :
  noslice_coords_definition (define key' a d) !! key = Some (xr.KScalar x) →
  key = key' ∨ noslice_coords_definition d !! key = Some (xr.KScalar x).
Proof.
  destruct a as [y|lo hi]; simpl; [|by right].
  destruct (decide (key = key')) as [->|Hne]; [by left|].
  rewrite lookup_insert_ne by done. by right.
Qed.

Lemma define_slice key' a d key s :
  slice_coords_definition (define key' a d) !! key = Some s →
  key = key' ∨ slice_coords_definition d !! key = Some s.
Proof.
  destruct a as [y|lo hi]; simpl; [by right|].
  destruct (decide (key = key')) as [->|Hne]; [by left|].
  rewrite lookup_insert_ne by done. by right.
Qed.

(** Only the queried keys are given a slice or a label. *)
Lemma selects_queried mode date long_lat depth has_depth key a :
  selects (coords_definitions mode date long_lat depth has_depth) key a →
  key ∈ queried_keys mode has_depth.
Proof.
  unfold coords_definitions, queried_keys. intros H.
  destruct a as [x|lo hi]; destruct H as [H _].
  - apply define_noslice in H as [->|H]; [by left|].
    destruct (truthy has_depth).
    + apply define_noslice in H as [->|H]; [set_solver|].
      apply define_noslice in H as [->|H]; [set_solver|].
      apply define_noslice in H as [->|H]; [set_solver|].
      simpl in H. apply lookup_singleton_Some in H as [_ ?]. done.
    + apply define_noslice in H as [->|H]; [set_solver|].
      apply define_noslice in H as [->|H]; [set_solver|].
      simpl in H. apply lookup_singleton_Some in H as [_ ?]. done.
  - apply define_slice in H as [->|H]; [by left|].
    destruct (truthy has_depth).
    + apply define_slice in H as [->|H]; [set_solver|].
      apply define_slice in H as [->|H]; [set_solver|].
      apply define_slice in H as [->|H]; [set_solver|].
      simpl in H. by rewrite lookup_empty in H.
    + apply define_slice in H as [->|H]; [set_solver|].
      apply define_slice in H as [->|H]; [set_solver|].
      simpl in H. by rewrite lookup_empty in H.
Qed.

Lemma queried_depth mode has_depth key :
  key ∈ queried_keys mode has_depth → key = "depth" → truthy has_depth = true.
Proof.
  unfold queried_keys. intros H ->.
  destruct (key_lon_not_depth mode) as (H1 & H2 & _).
  apply elem_of_cons in H as [?|H]; [done|].
  apply elem_of_cons in H as [?|H]; [congruence|].
  apply elem_of_cons in H as [?|H]; [congruence|].
  destruct (truthy has_depth); [done|]. by apply elem_of_nil in H.
Qed.

Lemma selected_coordinates_lookup mode has_depth values sc key :
  selected_coordinates mode has_depth values = Ok sc →
  key ∈ queried_keys mode has_depth →
  ∃ a, xr.coords_to_numpy values key = Ok a ∧ sc !! key = Some (Numpy a).
Proof.
  unfold selected_coordinates, queried_keys. intros H Hk.
  apply bind_Ok in H as (c_time & Ht & H). apply bind_Ok in H as (c_lon & Hlon & H).
  apply bind_Ok in H as (c_lat & Hlat & H). apply bind_Ok in H as (c_depth & Hdepth & H).
  simplify_eq.
  destruct (key_lon_cases mode) as [(_ & Hk1 & Hk2)|(_ & Hk1 & Hk2)];
    rewrite Hk1, Hk2 in *;
    (apply elem_of_cons in Hk as [->|Hk]; [by exists c_time|];
     apply elem_of_cons in Hk as [->|Hk]; [by exists c_lon|];
     apply elem_of_cons in Hk as [->|Hk]; [by exists c_lat|];
     destruct (truthy has_depth); [|by apply elem_of_nil in Hk];
     apply list_elem_of_singleton in Hk as ->;
     apply bind_Ok in Hdepth as (a & Ha & ?); simplify_eq; by exists a).
Qed.

Lemma list_find_to_map {A} (f : A → scalar) (l : list (string * A)) k i c :
  list_find (λ c, c.1 = k) l = Some (i, c) →
  (list_to_map (map (λ c, (c.1, f c.2)) l) : gmap string scalar) !! k = Some (f c.2).
Proof.
  revert i. induction l as [|c1 rest IH]; intros i; simpl; [done|].
  case_decide as Hc.
  - intros ?; simplify_eq. by rewrite lookup_insert_eq.
  - intros H. rewrite lookup_insert_ne by done.
    destruct (list_find _ rest) as [[j c']|] eqn:Hf; simplify_eq/=. by eapply IH.
Qed.

(** The dimension of a key of the slice dictionary after both selections:
    the labels of the slice among the distinct labels of the array. *)
Lemma selection_sliced_labels ds mode date long_lat depth has_depth values key sl labels' :
  let d := coords_definitions mode date long_lat depth has_depth in
  selection ds mode date long_lat depth has_depth = Ok values →
  slice_coords_definition d !! key = Some (xr.KSlice sl) →
  noslice_coords_definition d !! key = None →
  (key, labels') ∈ xr.dims values →
  ∃ labels, (key, labels) ∈ xr.dims ds ∧
            labels' = filter (λ e, xr.in_slice sl e.2) (xr.dedup [] labels).
Proof.
  intros d H Hs Hn Hin. unfold selection in H. fold d in H.
  apply bind_Ok in H as (v1 & H1 & H2).
  apply sel_inv in H1 as (r1 & Hr1 & _ & Hd1 & _).
  apply sel_inv in H2 as (r2 & Hr2 & _ & Hd2 & _).
  assert (key ≠ "method") as Hm.
  { intros ->. pose proof (coords_definitions_selects mode date long_lat depth has_depth)
      as (_ & _ & _ & _ & Hsm & _). fold d in Hsm. congruence. }
  rewrite Hd2 in Hin.
  apply sel_dims_kept in Hr2. rewrite Forall_forall in Hr2.
  destruct (Hr2 _ Hin) as (l1 & Hin1 & Hc1). simpl in *.
  rewrite lookup_delete_ne in Hc1 by done.
  destruct Hc1 as [[_ ->]|(? & ? & _)]; [|congruence].
  rewrite Hd1 in Hin1.
  apply sel_dims_kept in Hr1. rewrite Forall_forall in Hr1.
  destruct (Hr1 _ Hin1) as (l0 & Hin0 & Hc0). simpl in *.
  rewrite lookup_delete_ne in Hc0 by done.
  destruct Hc0 as [[? _]|(sl' & Hsl & _ & ->)]; [congruence|].
  assert (sl' = sl) as -> by congruence.
  unfold xr.drop_duplicates in Hin0. simpl in Hin0.
  apply list_elem_of_fmap in Hin0 as ([k0 labels] & Heq & Hin0). simplify_eq/=.
  by exists labels.
Qed.

(** A key of the other dictionary: the second selection turns its
    dimension into a scalar coordinate, the label nearest to the query. *)
Lemma selection_picked ds mode date long_lat depth has_depth values key x :
  let d := coords_definitions mode date long_lat depth has_depth in
  selection ds mode date long_lat depth has_depth = Ok values →
  noslice_coords_definition d !! key = Some (xr.KScalar x) →
  slice_coords_definition d !! key = None →
  (key ∉ (xr.dims values).*1) ∧
  xr.name values = xr.name ds ∧
  ∃ picked, xr.scalar_coords values = (xr.scalar_coords ds ++ picked)%list ∧
    Forall (λ c, c.1 = key →
                 (∃ labels, (key, labels) ∈ xr.dims ds ∧ nearest_label x labels.*2 c.2.2))
      picked.
Proof.
  intros d H Hn Hs. split.
  { intros (d' & -> & Hin)%list_elem_of_fmap.
    destruct (selection_dims _ _ _ _ _ _ _ d' H Hin) as [_ Hno]. by eapply Hno. }
  unfold selection in H. fold d in H.
  apply bind_Ok in H as (v1 & H1 & H2).
  apply sel_inv in H1 as (r1 & Hr1 & _ & Hd1 & Hn1 & _ & Hc1).
  apply sel_inv in H2 as (r2 & Hr2 & _ & Hd2 & Hn2 & _ & Hc2).
  split; [by rewrite Hn2, Hn1|].
  pose proof (coords_definitions_selects mode date long_lat depth has_depth)
    as (_ & _ & _ & _ & Hsm & Hnm). fold d in Hsm, Hnm.
  rewrite Hsm in Hr1. pose proof (sel_dims_slices _ _ _ Hr1) as Hnil.
  exists r2.2. split.
  { rewrite Hc2, Hc1, Hnil. simpl. by rewrite app_nil_r. }
  pose proof (sel_dims_picked _ _ _ _ Hr2) as HF.
  eapply Forall_impl; [exact HF|]. intros c (l1 & i & Hin1 & Hi & Hone) Hck.
  rewrite Hck in *.
  assert (key ≠ "method") as Hm.
  { intros ->. congruence. }
  rewrite lookup_delete_ne in Hi by done.
  apply sel_one_picked in Hone as (x' & dd & -> & Hnear).
  assert (x' = x) as -> by congruence.
  rewrite Hd1 in Hin1.
  apply sel_dims_kept in Hr1. rewrite Forall_forall in Hr1.
  destruct (Hr1 _ Hin1) as (l0 & Hin0 & Hc0). simpl in *.
  rewrite lookup_delete_ne in Hc0 by done.
  destruct Hc0 as [[_ ->]|(? & ? & _)]; [|congruence].
  unfold xr.drop_duplicates in Hin0. simpl in Hin0.
  apply list_elem_of_fmap in Hin0 as ([k0 labels] & Heq & Hin0). simplify_eq/=.
  exists labels. split; [done|]. by eapply nearest_label_all.
Qed.

(** X14. The selected coordinates that [f_slice] returns, under the key
    of the backend's naming. For an axis given as a range: the distinct
    labels of that dimension within the range, in the order of the array.
    For an axis given as a scalar (on an array that has no scalar coordinate
    of that name): one label of that dimension, none of the labels being
    closer to the requested value; and, when the variable is not named like
    the axis, every row of a returned table has that label as its level of
    the axis. *)
Theorem f_slice_selected_coordinates reduction ds mode date long_lat depth has_depth
    res sc key a :
  f_slice reduction ds mode date long_lat depth has_depth = Ok (res, sc) →
  selects (coords_definitions mode date long_lat depth has_depth) key a →
  match a with
  | Range lo hi =>
      ∃ labels, (key, labels) ∈ xr.dims ds ∧
        sc !! key = Some (Numpy (xr.Arr1
          (filter (λ e, xr.in_slice (xr.Slice lo hi) e.2) (xr.dedup [] labels)).*2))
  | Point x =>
      key ∉ (xr.scalar_coords ds).*1 →
      ∃ labels y, (key, labels) ∈ xr.dims ds ∧ nearest_label x labels.*2 y ∧
        sc !! key = Some (Numpy (xr.Arr0 y)) ∧
        (xr.name ds ≠ key →
         ∀ i df, index_keys mode !! i = Some key → res = Table df →
                 Forall (λ r, r.1 !! i = Some y) (pd.rows df))
  end.
Proof.
  intros H Ha. pose proof (selects_queried _ _ _ _ _ _ _ Ha) as Hq.
  apply f_slice_inv in H as (values & df & Hsel & Htab & Hred & Hsc).
  destruct (selected_coordinates_lookup _ _ _ _ _ Hsc Hq) as (c & Hc & Hlook).
  unfold xr.coords_to_numpy in Hc.
  destruct a as [x|lo hi]; destruct Ha as [Ha1 Ha2].
  - intros Hfresh.
    destruct (selection_picked _ _ _ _ _ _ _ _ _ Hsel Ha1 Ha2)
      as (Hdim & Hname & picked & Hcoords & HF).
    destruct (list_find (λ d, d.1 = key) (xr.dims values)) as [[j d']|] eqn:Hfd.
    { apply list_find_Some in Hfd as (Hj & Hk & _). exfalso. apply Hdim.
      apply list_elem_of_fmap. exists d'. split; [done|].
      by eapply list_elem_of_lookup_2. }
    destruct (list_find (λ c, c.1 = key) (xr.scalar_coords values)) as [[j c0]|] eqn:Hfc;
      [|done].
    simplify_eq.
    pose proof Hfc as (Hj & Hk & _)%list_find_Some.
    apply list_elem_of_lookup_2 in Hj. rewrite Hcoords in Hj.
    apply elem_of_app in Hj as [Hj|Hj].
    { exfalso. apply Hfresh. apply list_elem_of_fmap. by exists c0. }
    rewrite Forall_forall in HF. destruct (HF _ Hj Hk) as (labels & Hl & Hnear).
    exists labels, c0.2.2. split_and!; [done..|].
    intros Hne i df' Hi -> . apply reduce_table in Hred as ->.
    destruct (table_rows _ _ _ _ _ Htab) as (df0 & H0 & _).
    pose proof (table_level _ _ _ _ _ _ _ _ Htab H0 Hi (queried_depth _ _ _ Hq)) as HF2.
    apply Forall_forall. intros r Hr. apply list_elem_of_lookup in Hr as [n Hn].
    destruct (Forall2_lookup_r _ _ _ _ _ HF2 Hn) as (r0 & Hn0 & ->).
    apply list_elem_of_lookup_2 in Hn0.
    apply to_dataframe_inv in H0 as (Hnames & _ & Hrows).
    rewrite Hrows in Hn0. apply list_elem_of_fmap in Hn0 as (choice & -> & _).
    unfold reset_cells, xr.row_of. simpl.
    rewrite lookup_union_r.
    + rewrite lookup_insert_ne by congruence.
      by rewrite (list_find_to_map (λ e, e.2) _ _ _ _ Hfc).
    + apply zip_lookup_None. by rewrite Hnames.
  - destruct (selection_sliced _ _ _ _ _ _ _ _ _ Hsel Ha1 Ha2) as [Hdim _].
    destruct (list_find (λ d, d.1 = key) (xr.dims values)) as [[j d']|] eqn:Hfd.
    + apply list_find_Some in Hfd as (Hj & Hk & _). simplify_eq.
      apply list_elem_of_lookup_2 in Hj.
      destruct (selection_sliced_labels _ _ _ _ _ _ _ _ _ d'.2 Hsel Ha1 Ha2)
        as (labels & Hl & Heq); [by destruct d'|].
      exists labels. split; [done|]. by rewrite Hlook, Heq.
    + exfalso. apply list_elem_of_fmap in Hdim as (d' & Hk & Hin).
      apply list_elem_of_lookup in Hin as [j Hj].
      eapply list_find_None in Hfd. rewrite Forall_forall in Hfd.
      apply (Hfd d'); [by eapply list_elem_of_lookup_2|done].
Qed.

Lemma f_slice_selected_coordinates_witness :
  ∃ labels y,
    ("lat", labels) ∈ xr.dims sample_thetao ∧ nearest_label (Num 30) labels.*2 y ∧
    coordinates_of thetao_query !! "lat" = Some (Numpy (xr.Arr0 y)).
Proof.
  destruct (f_slice_selected_coordinates None sample_thetao (VStr "lon-lat")
              (Point sample_day) (Range 0%Q 10%Q, Point 30%Q) (Point 4%Q) (VBool true)
              (Table (table_of thetao_query)) (coordinates_of thetao_query)
              "lat" (Point (Num 30)) eq_refl (conj eq_refl eq_refl)
              (not_elem_of_nil _))
    as (labels & y & Hl & Hy & Hsc & _).
  exists labels, y. exact (conj Hl (conj Hy Hsc)).
Defined.

(** The latitude 30.4 of a query lies between the labels 30 and 31 of the
    sample grid: the rows and the selected coordinates are those of 30. *)
Example nearest_latitude :
  coordinates_of nearest_query !! "lat" = Some (Numpy (xr.Arr0 (Num 30))) ∧
  (λ r, r.1 !! 2%nat) <$> pd.rows (table_of nearest_query)
  = [Some (Num 30); Some (Num 30); Some (Num 30)].
Proof. split; reflexivity. Qed.




(** *** The registry *)

(** X16. The registry has two families of features. Those of the
    "med-cmcc-" datasets have the slice mode "lon-lat" and are valid from
    1987-01-01; [f_slice] names their horizontal axes [lon] and [lat]. Those
    of the "med-ogs-" datasets have the slice mode "longitude-latitude" and
    are valid from 1999-01-01; their axes are [longitude] and [latitude]. No
    feature has another slice mode, so the [else] branch of the naming test
    is taken for "longitude-latitude" only. *)
Theorem registry_families what params :
  _feature_params !! what = Some params →
  (family "med-cmcc-" "lon-lat" (datetime.of_dmy 1 1 1987) params ∧
   key_lon (default (VStr "") (params !! "slice_mode")) = "lon" ∧
   key_lat (default (VStr "") (params !! "slice_mode")) = "lat")
  ∨
  (family "med-ogs-" "longitude-latitude" (datetime.of_dmy 1 1 1999) params ∧
   key_lon (default (VStr "") (params !! "slice_mode")) = "longitude" ∧
   key_lat (default (VStr "") (params !! "slice_mode")) = "latitude").
Proof.
  unfold _feature_params, family.
  repeat (rewrite list_to_map_cons, lookup_insert; case_decide;
          [intros [= <-]; rewrite !descriptor_lookup; simpl;
           first [left; split_and!; [by eexists|done..]
                 |right; split_and!; [by eexists|done..]]|]).
  by rewrite list_to_map_nil, lookup_empty.
Qed.

Lemma registry_families_witness :
  family "med-ogs-" "longitude-latitude" (datetime.of_dmy 1 1 1999)
    (descriptor "med-ogs-bio-rean-d" "o2" "longitude-latitude" true
       (datetime.of_dmy 1 1 1999)).
Proof.
  destruct (registry_families "oxygen"
              (descriptor "med-ogs-bio-rean-d" "o2" "longitude-latitude" true
                 (datetime.of_dmy 1 1 1999)) eq_refl) as [[Hf _]|[Hf _]].
  - exfalso. destruct Hf as (_ & Hm & _). vm_compute in Hm. discriminate.
  - exact Hf.
Defined.

(** ** Queries that give no table *)

(** C8. The claim says that every query gives a table, or its mean. A
    query with a scalar on every axis, the shape of the query of
    [examples/example-cmems-001.py], gives neither: on an array that has no
    dimension besides the queried ones the two selections leave an array
    without dimensions, and [f_slice] ends with the [ValueError] of
    [to_dataframe] (or with the error of the selection, when the selection
    fails). X17 is what the claim says, for the queries on which [f_slice]
    returns. *)
Theorem f_slice_point_query_builds_no_table reduction ds mode t x y z has_depth :
  (∀ k, k ∈ (xr.dims ds).*1 → k ∈ queried_keys mode has_depth) →
  f_slice reduction ds mode (Point t) (Point x, Point y) (Point z) has_depth =
  match selection ds mode (Point t) (Point x, Point y) (Point z) has_depth with
  | Ok _ => Err (ValueError [Lit "cannot convert a scalar to a DataFrame"])
  | Err e => Err e
  end.
Proof.
  intros Hdims. rewrite f_slice_eq.
  destruct (selection _ _ _ _ _ _) as [values|e] eqn:Hsel; [|done]. simpl.
  assert (xr.dims values = []) as Hnil.
  { destruct (xr.dims values) as [|d' rest] eqn:Hd; [done|]. exfalso.
    destruct (selection_dims _ _ _ _ _ _ _ d' Hsel) as [Hin Hno].
    { rewrite Hd. by left. }
    apply Hdims in Hin.
    pose proof (coords_definitions_selects mode (Point t) (Point x, Point y) (Point z)
                  has_depth) as ([Hlon _] & [Hlat _] & [Htime _] & Hdepth & _).
    simpl in Hlon, Hlat, Htime. unfold queried_keys in Hin.
    apply elem_of_cons in Hin as [Hk|Hin]; [rewrite Hk in Hno; by eapply Hno|].
    apply elem_of_cons in Hin as [Hk|Hin]; [rewrite Hk in Hno; by eapply Hno|].
    apply elem_of_cons in Hin as [Hk|Hin]; [rewrite Hk in Hno; by eapply Hno|].
    destruct (truthy has_depth); [|by apply elem_of_nil in Hin].
    apply list_elem_of_singleton in Hin. rewrite Hin in Hno.
    destruct Hdepth as [Hz _]. by eapply Hno. }
  unfold table, xr.to_dataframe. by rewrite Hnil.
Qed.

Lemma f_slice_point_query_builds_no_table_witness :
  example_query None = Err (ValueError [Lit "cannot convert a scalar to a DataFrame"]).
Proof.
  unfold example_query.
  etransitivity; [apply f_slice_point_query_builds_no_table|reflexivity].
  intros k Hk. vm_compute in Hk. vm_compute.
  repeat (apply elem_of_cons in Hk as [->|Hk]; [set_solver|]).
  by apply elem_of_nil in Hk.
Defined.

(** The same query through [get_value], on a registry that has the keys
    of the connector and on an object that can open the dataset: the
    dataset is fetched, and the conversion refuses the selection. *)
Example patched_point_query_is_refused :
  (get_value_with patched_registry sample_world (Point (datetime.mk 2020 7 31 0 0 0 0))
     (Point (-295 # 100)%Q, Point (3532 # 100)%Q) (Point (83 # 10)%Q)
     "temperature" None sample_run).1
  = Raise (ValueError [Lit "cannot convert a scalar to a DataFrame"]).
Proof. reflexivity. Qed.

(** C10. The claim says that with a reduction other than "mean"
    [get_value] returns the unreduced table. As written it returns nothing,
    whatever the reduction: every query raises, and a temperature query over
    a range of longitudes stops at [params["prefix"]] with the state as it
    was (the defect of C1). What the claim says of the reduction holds
    behind that defect: for any registry [get_value] ends as it ends with
    [reduction=None], and on a registry that has the keys of the connector
    the same query returns the unreduced table of three rows. *)
Theorem get_value_other_reduction_returns_no_table reduction :
  reduction ≠ Some (VStr "mean") →
  (∀ w date long_lat depth what r v,
     (get_value w date long_lat depth what reduction r).1 ≠ Return v) ∧
  (∀ w r,
     get_value w (Point sample_day) (Range 0%Q 10%Q, Point 30%Q) (Point 4%Q)
       "temperature" reduction r
     = (Raise (KeyError "prefix"), r)) ∧
  (∀ registry w date long_lat depth what r,
     get_value_with registry w date long_lat depth what reduction r
     = get_value_with registry w date long_lat depth what None r) ∧
  match (get_value_with patched_registry sample_world (Point sample_day)
           (Range 0%Q 10%Q, Point 30%Q) (Point 4%Q) "temperature" reduction sample_run).1 with
  | Return (Table df, _) =>
      map fst (pd.rows df) =
      [[Time sample_day; Num 0; Num 30; Num 5];
       [Time sample_day; Num 5; Num 30; Num 5];
       [Time sample_day; Num 10; Num 30; Num 5]]
  | _ => False
  end.
Proof.
  intros Hr. destruct (get_value_with_other_reduction reduction Hr) as [_ Hsame].
  split_and!.
  - intros w date long_lat depth what r v.
    destruct (_feature_params !! what) as [params|] eqn:H.
    + destruct (get_value_registered w date long_lat depth what reduction r _ H)
        as (limit & _ & ->).
      by destruct (datetime.ltb _ _).
    + unfold get_value. by rewrite get_value_with_unknown.
  - intros w r.
    destruct (get_value_registered w (Point sample_day) (Range 0%Q 10%Q, Point 30%Q)
                (Point 4%Q) "temperature" reduction r
                (descriptor "med-cmcc-tem-rean-d" "thetao" "lon-lat" true
                   (datetime.of_dmy 1 1 1987)) eq_refl) as (limit & Hl & Hg).
    rewrite descriptor_lookup in Hl. simpl in Hl. by simplify_eq.
  - exact Hsame.
  - rewrite Hsame. vm_compute. reflexivity.
Qed.

(** The reduction "max". *)
Lemma get_value_other_reduction_returns_no_table_witness :
  get_value (stub_world 0 ∅) (Point sample_day) (Range 0%Q 10%Q, Point 30%Q) (Point 4%Q)
    "temperature" (Some (VStr "max")) (mkRun fresh [])
  = (Raise (KeyError "prefix"), mkRun fresh []) ∧
  match (get_value_with patched_registry sample_world (Point sample_day)
           (Range 0%Q 10%Q, Point 30%Q) (Point 4%Q) "temperature" (Some (VStr "max"))
           sample_run).1 with
  | Return (Table df, _) =>
      map fst (pd.rows df) =
      [[Time sample_day; Num 0; Num 30; Num 5];
       [Time sample_day; Num 5; Num 30; Num 5];
       [Time sample_day; Num 10; Num 30; Num 5]]
  | _ => False
  end.
Proof.
  destruct (get_value_other_reduction_returns_no_table (Some (VStr "max")))
    as (_ & H1 & _ & H2); [discriminate|].
  exact (conj (H1 _ _) H2).
Defined.

(** ** The table and the mean *)

Lemma selection_data ds mode date long_lat depth has_depth values :
  selection ds mode date long_lat depth has_depth = Ok values →
  xr.data values = xr.data ds.
Proof.
  unfold selection. intros H. apply bind_Ok in H as (v1 & H1 & H2).
  apply sel_inv in H1 as (_ & _ & _ & _ & _ & Hd1 & _).
  apply sel_inv in H2 as (_ & _ & _ & _ & _ & Hd2 & _). by rewrite Hd2, Hd1.
Qed.

Lemma column_sampled values (choices : list (list (nat * scalar))) :
  omap (λ r, r.2 !! xr.name values) (map (xr.row_of values) choices)
  = map (sampled values) choices.
Proof.
  induction choices as [|c choices IH]; [done|]. simpl.
  unfold xr.row_of at 1. simpl. rewrite lookup_insert_eq. simpl.
  by rewrite <- IH.
Qed.

Lemma mean_cells_slice_mean cells : pd.mean_cells cells = slice_mean cells.
Proof. unfold pd.mean_cells, slice_mean. by destruct (omap _ cells). Qed.

(** X17. When [f_slice] returns, for a variable named like none of the
    index keys: the table has the index levels [time], [longitude],
    [latitude], [depth] whatever the naming of the backend, and one row per
    sampled point of the selected array, in the order of the array. The
    cell of the variable is the value stored at that point, and the level of
    an axis that is still a dimension is the label chosen along it (for
    depth, when the feature has a depth axis). The result is that table, or
    with the reduction "mean" the sum of the sampled numbers over their
    count. The variables of the registry are such names
    ([registry_variables_are_not_keys]). *)
Theorem f_slice_rows_and_mean reduction ds mode date long_lat depth has_depth res sc :
  xr.name ds ∉ index_keys mode →
  f_slice reduction ds mode date long_lat depth has_depth = Ok (res, sc) →
  ∃ values df,
    selection ds mode date long_lat depth has_depth = Ok values ∧
    xr.data values = xr.data ds ∧
    f_slice None ds mode date long_lat depth has_depth = Ok (Table df, sc) ∧
    pd.index_names df = ["time"; "longitude"; "latitude"; "depth"] ∧
    Forall2 (λ choice r,
               length r.1 = 4%nat ∧
               r.2 !! xr.name ds = Some (sampled values choice) ∧
               ∀ i key, index_keys mode !! i = Some key →
                        key ∈ (xr.dims values).*1 →
                        (key = "depth" → truthy has_depth = true) →
                        is_Some (r.1 !! i) ∧ r.1 !! i = label_at values choice key)
      (xr.product (xr.dims values).*2) (pd.rows df) ∧
    res = if decide (reduction = Some (VStr "mean"))
          then Scalar (slice_mean (sampled values <$> xr.product (xr.dims values).*2))
          else Table df.
Proof.
  intros Hname H. apply f_slice_inv in H as (values & df & Hsel & Htab & Hred & Hsc).
  pose proof (selection_name _ _ _ _ _ _ _ Hsel) as Hn. rewrite <- Hn in *.
  destruct (table_rows _ _ _ _ _ Htab) as (df0 & H0 & Hnames & _).
  destruct (table_keeps_values _ _ _ _ _ _ Hname Htab H0) as [Hcol HF].
  pose proof (to_dataframe_inv _ _ H0) as (Hidx0 & _ & Hrows0).
  exists values, df. split_and!; try done.
  - by eapply selection_data.
  - rewrite f_slice_eq, Hsel. simpl. rewrite Htab. simpl.
    by rewrite Hsc.
  - apply Forall2_same_length_lookup. split.
    { apply Forall2_length in HF. by rewrite <- HF, Hrows0, length_map. }
    intros j choice r Hc Hr.
    assert (pd.rows df0 !! j = Some (xr.row_of values choice)) as Hr0.
    { by rewrite Hrows0, list_lookup_fmap, Hc. }
    destruct (Forall2_lookup_lr _ _ _ _ _ _ HF Hr0 Hr) as (Hlen & _ & Hcell).
    split_and!; [done| |].
    { rewrite Hcell. unfold xr.row_of. simpl. by rewrite lookup_insert_eq. }
    intros i key Hi Hkey Hdepth.
    pose proof (table_level _ _ _ _ _ _ _ _ Htab H0 Hi Hdepth) as HL.
    pose proof (Forall2_lookup_lr _ _ _ _ _ _ HL Hr0 Hr) as Hlevel. simpl in Hlevel.
    apply list_elem_of_lookup_2, product_elem in Hc.
    destruct (zip_dims_lookup _ _ _ Hc Hkey) as (x & labels & Hx & _).
    assert (reset_cells (pd.index_names df0) (xr.row_of values choice) !! key = Some x)
      as Hreset.
    { unfold reset_cells, xr.row_of. simpl. rewrite Hidx0.
      by apply lookup_union_Some_l. }
    rewrite Hreset in Hlevel. simpl in Hlevel.
    unfold label_at. rewrite Hx, Hlevel. split; [by eexists|done].
  - unfold reduce in Hred. destruct (decide _); [|by simplify_eq].
    apply bind_Ok in Hred as (x & Hx & ?). simplify_eq.
    apply item_mean_inv in Hx as (k & Hk & ->). rewrite Hk in Hcol.
    apply list_elem_of_singleton in Hcol as <-. do 2 f_equal.
    rewrite mean_cells_slice_mean. f_equal.
    unfold pd.column. rewrite <- column_sampled, <- Hrows0. apply column_Forall2.
    eapply Forall2_impl; [exact HF|]. by intros r0 r (_ & _ & ?).
Qed.

(** The mean of the temperature query is the mean of its three sampled
    values. *)
Lemma f_slice_rows_and_mean_witness :
  ∃ values sc,
    selection sample_thetao (VStr "lon-lat") (Point sample_day)
      (Range 0%Q 10%Q, Point 30%Q) (Point 4%Q) (VBool true) = Ok values ∧
    f_slice (Some (VStr "mean")) sample_thetao (VStr "lon-lat") (Point sample_day)
      (Range 0%Q 10%Q, Point 30%Q) (Point 4%Q) (VBool true)
    = Ok (Scalar (slice_mean (sampled values <$> xr.product (xr.dims values).*2)), sc).
Proof.
  destruct thetao_query_mean as [sc H].
  destruct (f_slice_rows_and_mean (Some (VStr "mean")) sample_thetao (VStr "lon-lat")
              (Point sample_day) (Range 0%Q 10%Q, Point 30%Q) (Point 4%Q) (VBool true)
              (Scalar (Num (306 # 3))) sc)
    as (values & df & Hsel & _ & _ & _ & _ & Hres).
  - apply (bool_decide_unpack _). vm_compute. exact I.
  - exact H.
  - exists values, sc. split; [exact Hsel|].
    destruct (decide (Some (VStr "mean") = Some (VStr "mean"))); [|done].
    rewrite <- Hres. exact H.
Defined.

Example slice_mean_of_three :
  slice_mean [Num 101; NaN; Num 102; Num 103] = Num (306 # 3).
Proof. reflexivity. Qed.
